(** * MonConvert: the request-lifecycle core of [app.py]

    A shallow embedding of the Flask application [src/app.py]: the sliding
    window rate limiter ([rate_limit]), the upload handler ([upload_file]),
    the single-use download handler ([download_file]) and the helpers they
    call ([allowed_file], [create_temp_dirs], [cleanup_file]).

    Modelling conventions.
    - Python [str] values are Rocq strings over 7-bit ASCII.  On characters
      outside ASCII [lower] is the identity and [secure_filename] drops them
      (its [encode("ascii", "ignore")] step); Unicode normalisation is not
      modelled.
    - The file system is a finite map from path strings to nodes (directory
      or regular file with its bytes).  Paths are POSIX ([os.sep = "/"]) and
      relative paths are resolved against one working directory.  There are no
      permissions or locks: unlinking a regular file succeeds, unlinking a
      directory or a missing path raises [OSError].
    - Every library call that touches the file system, and every call of
      [cleanup_file], is recorded in a chronological log, so that "is
      invoked" and "before any file-system access" are statements about the
      log.  Calls of [logging] and [jsonify] are total and are not recorded.
    - [time.time()] readings are integers of a fixed clock unit; the limiter
      only subtracts and compares them.  [uuid.uuid4()] is a 128-bit number
      drawn by the environment, and the external encoder is a function from
      its command line and the current file system to an exit status and the
      bytes it left at its output path.
    - Flask parses the request body when [request.files] is first read.  The
      application sets [MAX_CONTENT_LENGTH] (line 26), so that read raises
      werkzeug's [RequestEntityTooLarge] when the declared content length
      exceeds it.  A request that declares no length is one whose body
      werkzeug accepts. *)

From Stdlib Require Import Ascii String ZArith List Lia Bool Sorted.
From stdpp Require Import base tactics option list gmap strings fin_maps.

Set Warnings "-clear-no-such-hyp".

Open Scope Z_scope.

(** ** Python string operations *)

Module Py.

Definition chars (s : string) : list ascii := String.list_ascii_of_string s.
Definition str (l : list ascii) : string := String.string_of_list_ascii l.

Definition code (c : ascii) : N := Ascii.N_of_ascii c.

Definition between (lo hi : N) (c : ascii) : bool :=
  ((lo <=? code c) && (code c <=? hi))%N.

Definition is_upper (c : ascii) : bool := between 65 90 c.

(** [str.lower()] on one ASCII character. *)
Definition lower_char (c : ascii) : ascii :=
  if is_upper c then Ascii.ascii_of_N (code c + 32) else c.

(** [s.lower()] *)
Definition lower (s : string) : string := str (map lower_char (chars s)).

(** [c in s] for a one-character string [c]. *)
Definition contains (c : ascii) (s : string) : bool :=
  existsb (Ascii.eqb c) (chars s).

(** [s.rsplit(c, 1)]: split once at the last occurrence of [c];
    the whole string alone when [c] does not occur. *)
Fixpoint rsplit1_chars (c : ascii) (l : list ascii) : option (list ascii * list ascii) :=
  match l with
  | [] => None
  | x :: l' =>
      match rsplit1_chars c l' with
      | Some (h, t) => Some (x :: h, t)
      | None => if Ascii.eqb x c then Some ([], l') else None
      end
  end.

Definition rsplit1 (c : ascii) (s : string) : list string :=
  match rsplit1_chars c (chars s) with
  | Some (h, t) => [str h; str t]
  | None => [s]
  end.

(** Truthiness of a string: the empty string is falsy. *)
Definition truthy (s : string) : bool :=
  match s with EmptyString => false | String _ _ => true end.

(** Whitespace as [str.split()] sees it on ASCII text. *)
Definition is_space (c : ascii) : bool :=
  between 9 13 c || between 28 32 c.

(** [s.split()]: maximal runs of non-whitespace characters. *)
Fixpoint split_ws (l : list ascii) : list (list ascii) :=
  match l with
  | [] => []
  | c :: l' =>
      if is_space c then split_ws l'
      else match l' with
           | [] => [[c]]
           | c' :: _ =>
               if is_space c' then [c] :: split_ws l'
               else match split_ws l' with
                    | w :: ws => (c :: w) :: ws
                    | [] => [[c]]
                    end
           end
  end.

(** [sep.join(ws)] for a one-character separator. *)
Fixpoint join_chars (sep : ascii) (ws : list (list ascii)) : list ascii :=
  match ws with
  | [] => []
  | [w] => w
  | w :: ws' => w ++ sep :: join_chars sep ws'
  end.

(** [s.lstrip(set)] and [s.strip(set)] for a set given as a predicate. *)
Fixpoint lstrip (p : ascii -> bool) (l : list ascii) : list ascii :=
  match l with
  | [] => []
  | c :: l' => if p c then lstrip p l' else l
  end.

Definition strip (p : ascii -> bool) (l : list ascii) : list ascii :=
  rev (lstrip p (rev (lstrip p l))).

Definition starts_with (c : ascii) (s : string) : bool :=
  match s with
  | String x _ => Ascii.eqb x c
  | EmptyString => false
  end.

Definition ends_with (c : ascii) (s : string) : bool :=
  match rev (chars s) with
  | x :: _ => Ascii.eqb x c
  | [] => false
  end.

(** [os.path.join(a, b)] on POSIX. *)
Definition os_path_join (a b : string) : string :=
  if starts_with "/" b then b
  else if negb (truthy a) || ends_with "/" a then a +:+ b
  else a +:+ "/" +:+ b.

End Py.

(** ** [werkzeug.utils.secure_filename] (POSIX) *)

Module Werkzeug.
Import Py.

(** The character class [A-Za-z0-9_.-] kept by the stripping regex. *)
Definition filename_char (c : ascii) : bool :=
  between 65 90 c || between 97 122 c || between 48 57 c
  || Ascii.eqb c "_" || Ascii.eqb c "." || Ascii.eqb c "-".

Definition is_ascii (c : ascii) : bool := (code c <? 128)%N.

Definition dot_or_underscore (c : ascii) : bool :=
  Ascii.eqb c "." || Ascii.eqb c "_".

(** The library's steps, in order: drop what is not ASCII, turn the path
  separator into a space, join the whitespace-separated words with "_",
  delete every character outside the class, strip leading and trailing
  dots and underscores. *)
Definition secure_chars (l : list ascii) : list ascii :=
  let l1 := List.filter is_ascii l in
  let l2 := map (fun c => if Ascii.eqb c "/" then " "%char else c) l1 in
  let l3 := join_chars "_" (split_ws l2) in
  let l4 := List.filter filename_char l3 in
  strip dot_or_underscore l4.

Definition secure_filename (filename : string) : string :=
  str (secure_chars (chars filename)).

End Werkzeug.

(** ** Configuration (module level of [app.py]) *)

Definition UPLOAD_FOLDER : string := "uploads".
Definition CONVERTED_FOLDER : string := "converted".
(** A Python set; the code only tests membership. *)
Definition ALLOWED_EXTENSIONS : list string :=
  ["mp4"; "avi"; "mov"; "wmv"; "flv"; "mkv"; "webm"; "mpeg"; "mpg"; "m4v"].
Definition MAX_FILE_SIZE_MB : Z := 100.
Definition RATE_LIMIT_REQUESTS : Z := 5.
Definition RATE_LIMIT_WINDOW_SECONDS : Z := 60.
Definition MAX_CONTENT_LENGTH : Z := MAX_FILE_SIZE_MB * 1024 * 1024.

(** ** The file system and the effects log *)

Inductive Node : Type :=
| Dir
| File (data : string).

#[global] Instance Node_eq_dec : EqDecision Node.
Proof. solve_decision. Defined.

Inductive OSError : Type :=
| FileExistsError
| FileNotFoundError
| IsADirectoryError.

Inductive Exn : Type :=
| OSErr (e : OSError)
| CalledProcessError (returncode : Z)
| NotFound
| RequestEntityTooLarge.

Inductive Result (E A : Type) : Type :=
| Ok (a : A)
| Raise (e : E).
Arguments Ok {E A} a.
Arguments Raise {E A} e.

Inductive Event : Type :=
| EvMakedirs (p : string)
| EvExists (p : string)
| EvIsfile (p : string)
| EvRemove (p : string)
| EvSave (p : string)
| EvRun (cmd : list string)
| EvSend (p : string)
| EvCleanup (filepath : option string).

Record World : Type := mkWorld {
  fs : gmap string Node;
  log : list Event
}.

Definition emit (e : Event) (w : World) : World :=
  mkWorld (fs w) (log w ++ [e]).

Definition is_file (m : gmap string Node) (p : string) : bool :=
  match m !! p with
  | Some (File _) => true
  | _ => false
  end.

(** [os.makedirs(p, exist_ok=True)] for a one-component path. *)
Definition os_makedirs (p : string) (w : World) : Result OSError unit * World :=
  let w := emit (EvMakedirs p) w in
  match fs w !! p with
  | None => (Ok tt, mkWorld (<[p := Dir]> (fs w)) (log w))
  | Some Dir => (Ok tt, w)
  | Some (File _) => (Raise FileExistsError, w)
  end.

(** [os.path.exists(p)] *)
Definition os_path_exists (p : string) (w : World) : bool * World :=
  let w := emit (EvExists p) w in
  (bool_decide (is_Some (fs w !! p)), w).

(** [os.path.isfile(p)] *)
Definition os_path_isfile (p : string) (w : World) : bool * World :=
  let w := emit (EvIsfile p) w in
  (is_file (fs w) p, w).

(** [os.remove(p)] *)
Definition os_remove (p : string) (w : World) : Result OSError unit * World :=
  let w := emit (EvRemove p) w in
  match fs w !! p with
  | Some (File _) => (Ok tt, mkWorld (delete p (fs w)) (log w))
  | Some Dir => (Raise IsADirectoryError, w)
  | None => (Raise FileNotFoundError, w)
  end.

(** [FileStorage.save(p)]: open [p] for writing and copy the stream. *)
Definition file_save (data : string) (p : string) (w : World) : Result OSError unit * World :=
  let w := emit (EvSave p) w in
  match fs w !! p with
  | Some Dir => (Raise IsADirectoryError, w)
  | _ => (Ok tt, mkWorld (<[p := File data]> (fs w)) (log w))
  end.

(** What one run of the external encoder does: it exits with a status and
    may have left bytes (complete or partial) at its output path, or it could
    not be started at all. *)
Inductive EncoderOutcome : Type :=
| Exited (returncode : Z) (written : option string)
| NotStarted (e : OSError).

(** The encoder writes to the last word of its command line. *)
Definition output_of (cmd : list string) : string := List.last cmd "".

Definition encoder_write (p : string) (written : option string) (m : gmap string Node)
  : gmap string Node :=
  match written, m !! p with
  | Some data, Some Dir => m
  | Some data, _ => <[p := File data]> m
  | None, _ => m
  end.

(** [subprocess.run(cmd, check=True, capture_output=True, text=True)]: the
    value is the return code of the [CompletedProcess]. *)
Definition subprocess_run (tool : list string -> gmap string Node -> EncoderOutcome)
    (cmd : list string) (w : World) : Result Exn Z * World :=
  let w := emit (EvRun cmd) w in
  match tool cmd (fs w) with
  | NotStarted e => (Raise (OSErr e), w)
  | Exited rc written =>
      let w' := mkWorld (encoder_write (output_of cmd) written (fs w)) (log w) in
      if decide (rc = 0) then (Ok rc, w') else (Raise (CalledProcessError rc), w')
  end.

(** [send_from_directory(directory, name)]: the bytes of the regular file
    [directory/name], or werkzeug's [NotFound]. *)
Definition send_from_directory (directory name : string) (w : World)
  : Result Exn string * World :=
  let p := Py.os_path_join directory name in
  let w := emit (EvSend p) w in
  match fs w !! p with
  | Some (File data) => (Ok data, w)
  | _ => (Raise NotFound, w)
  end.

(** ** Helper functions of [app.py] *)

Definition allowed_file (filename : string) : bool :=
  Py.contains "." filename &&
  match Py.rsplit1 "." filename !! 1%nat with
  | Some ext => bool_decide (Py.lower ext ∈ ALLOWED_EXTENSIONS)
  | None => false
  end.

Definition create_temp_dirs (w : World) : Result OSError unit * World :=
  match os_makedirs UPLOAD_FOLDER w with
  | (Raise e, w1) => (Raise e, w1)
  | (Ok _, w1) => os_makedirs CONVERTED_FOLDER w1
  end.

Definition cleanup_file (filepath : option string) (w : World) : World :=
  let w := emit (EvCleanup filepath) w in
  match filepath with
  | None => w
  | Some p =>
      if Py.truthy p then
        let '(present, w1) := os_path_exists p w in
        if present then
          match os_remove p w1 with
          | (Ok _, w2) => w2
          | (Raise _, w2) => w2
          end
        else w1
      else w
  end.

(** ** The rate limiter *)

(** Lines 62-74 of [decorated_function], on the timestamp store alone: the
    decision and the store it leaves. *)
Definition rate_check (limit window : Z) (ip_address : string) (now : Z)
    (store : gmap string (list Z)) : bool * gmap string (list Z) :=
  let kept := filter (λ ts, now - ts < window) (store !!! ip_address) in
  let store1 := <[ip_address := kept]> store in
  if decide (Z.of_nat (length kept) >= limit) then (false, store1)
  else (true, <[ip_address := kept ++ [now]]> store1).

(** ** Requests and responses *)

Record FileStorage : Type := mkFile {
  filename : string;
  stream : string
}.

(** What the upload handler reads from Flask's [request]. *)
Record UploadRequest : Type := mkUpload {
  remote_addr : string;
  videoFile : option FileStorage;       (* the part named 'videoFile' of the body *)
  content_length : option Z;            (* request.content_length *)
  form_compression : option string;     (* request.form.get('compression') *)
  form_resolution : option string       (* request.form.get('resolution') *)
}.

(** [request.files]: the first read parses the body, and werkzeug refuses a
    body whose declared length exceeds [app.config['MAX_CONTENT_LENGTH']]. *)
Definition request_files (req : UploadRequest) : Result Exn (option FileStorage) :=
  match content_length req with
  | Some n =>
      if decide (n > MAX_CONTENT_LENGTH) then Raise RequestEntityTooLarge
      else Ok (videoFile req)
  | None => Ok (videoFile req)
  end.

(** What the environment supplies while one upload is handled. *)
Record Env : Type := mkEnv {
  uuid4 : N;
  ffmpeg : list string -> gmap string Node -> EncoderOutcome
}.

Inductive ErrorMessage : Type :=
| RateLimitExceeded (window : Z)   (* "Rate limit exceeded. Please wait {window} seconds." *)
| NoFilePart                       (* "No file part provided." *)
| NoFileSelected                   (* "No file selected." *)
| InvalidFileType                  (* "Invalid file type. Allowed types: ..." *)
| FileTooLarge                     (* "File is too large. Maximum size is 100 MB." *)
| ConversionFailed                 (* "Video conversion failed. ..." *)
| InternalServerError.             (* "An internal server error occurred." *)

Inductive Body : Type :=
| JsonError (e : ErrorMessage)
| JsonFilename (name : string)
| Text (s : string)
| SentFile (name data : string) (as_attachment : bool).

Record Response : Type := mkResponse {
  status : Z;
  body : Body
}.

(** ** [str(uuid.uuid4())] *)

Definition hex_digit (d : N) : ascii :=
  match d with
  | 0 => "0" | 1 => "1" | 2 => "2" | 3 => "3" | 4 => "4" | 5 => "5"
  | 6 => "6" | 7 => "7" | 8 => "8" | 9 => "9" | 10 => "a" | 11 => "b"
  | 12 => "c" | 13 => "d" | 14 => "e" | _ => "f"
  end%N%char.

(** The [i]-th hexadecimal digit of [n], counted from the least significant. *)
Definition nibble (n : N) (i : nat) : N :=
  (N.shiftr n (4 * N.of_nat i) mod 16)%N.

(** [len] digits downwards from digit [hi]. *)
Definition hex_field (n : N) (hi len : nat) : list ascii :=
  map (λ k, hex_digit (nibble n (hi - k)%nat)) (seq 0 len).

Definition uuid_chars (n : N) : list ascii :=
  hex_field n 31 8 ++ "-"%char :: hex_field n 23 4 ++ "-"%char ::
  hex_field n 19 4 ++ "-"%char :: hex_field n 15 4 ++ "-"%char ::
  hex_field n 11 12.

Definition uuid_str (n : N) : string := Py.str (uuid_chars n).

(** ** The upload handler *)

(** Lines 147-180: the encoder's command line. *)
Definition ffmpeg_command (upload_path converted_path compression resolution : string)
  : list string :=
  ["ffmpeg"; "-i"; upload_path]
  ++ (if decide (compression = "low") then ["-crf"; "18"]
      else if decide (compression = "high") then ["-crf"; "28"]
      else ["-crf"; "23"])
  ++ (if decide (resolution = "1080p") then ["-vf"; "scale=-2:1080"]
      else if decide (resolution = "720p") then ["-vf"; "scale=-2:720"]
      else if decide (resolution = "480p") then ["-vf"; "scale=-2:480"]
      else [])
  ++ ["-codec:v"; "libx264"; "-preset"; "medium"; "-codec:a"; "aac";
      "-b:a"; "128k"; "-movflags"; "+faststart"; "-y"; "-hide_banner";
      "-loglevel"; "error"; converted_path].

(** The local variables the [finally] block looks at. *)
Record Locals : Type := mkLocals {
  upload_path : option string;
  converted_path : option string;
  process : option Z                 (* bound iff [subprocess.run] returned *)
}.

(** How the [try] body ends: a [return] or a raised exception. *)
Inductive Exit : Type :=
| Return (r : Response)
| Raised (e : Exn).

Definition temp_filename_of (req_filename : string) (unique_id : string) : string :=
  let original_filename := Werkzeug.secure_filename req_filename in
  let original_extension :=
    if Py.contains "." original_filename
    then default "" (Py.lower <$> (Py.rsplit1 "." original_filename !! 1%nat))
    else "" in
  unique_id +:+ "." +:+ original_extension.

(** Lines 105-189: the body of the [try] statement. Line 106 is the first
    read of [request.files]; the length check of line 123 is kept where the
    source has it. *)
Definition upload_try (req : UploadRequest) (env : Env) (w : World)
  : Locals * Exit * World :=
  let locals0 := mkLocals None None None in
  match request_files req with
  | Raise e => (locals0, Raised e, w)
  | Ok None => (locals0, Return (mkResponse 400 (JsonError NoFilePart)), w)
  | Ok (Some file) =>
    if decide (filename file = "") then
      (locals0, Return (mkResponse 400 (JsonError NoFileSelected)), w)
    else if negb (allowed_file (filename file)) then
      (locals0, Return (mkResponse 400 (JsonError InvalidFileType)), w)
    else if match content_length req with
            | Some n => bool_decide (n ≠ 0) && bool_decide (n > MAX_CONTENT_LENGTH)
            | None => false
            end then
      (locals0, Return (mkResponse 413 (JsonError FileTooLarge)), w)
    else
      let unique_id := uuid_str (uuid4 env) in
      let temp_filename := temp_filename_of (filename file) unique_id in
      let upload_path := Py.os_path_join UPLOAD_FOLDER temp_filename in
      let converted_filename := unique_id +:+ ".mp4" in
      let converted_path := Py.os_path_join CONVERTED_FOLDER converted_filename in
      let locals1 := mkLocals (Some upload_path) (Some converted_path) None in
      match file_save (stream file) upload_path w with
      | (Raise e, w1) => (locals1, Raised (OSErr e), w1)
      | (Ok _, w1) =>
        let compression := Py.lower (default "medium" (form_compression req)) in
        let resolution := Py.lower (default "original" (form_resolution req)) in
        let cmd := ffmpeg_command upload_path converted_path compression resolution in
        match subprocess_run (ffmpeg env) cmd w1 with
        | (Raise e, w2) => (locals1, Raised e, w2)
        | (Ok rc, w2) =>
          (mkLocals (Some upload_path) (Some converted_path) (Some rc),
           Return (mkResponse 200 (JsonFilename converted_filename)), w2)
        end
      end
  end.

(** Lines 191-201: the two [except] clauses. *)
Definition upload_except (x : Exit) : Response :=
  match x with
  | Return r => r
  | Raised (CalledProcessError _) => mkResponse 500 (JsonError ConversionFailed)
  | Raised _ => mkResponse 500 (JsonError InternalServerError)
  end.

(** Lines 202-211: the [finally] block. *)
Definition upload_finally (l : Locals) (w : World) : World :=
  let w1 := cleanup_file (upload_path l) w in
  match process l with
  | Some rc => if decide (rc ≠ 0) then cleanup_file (converted_path l) w1 else w1
  | None => cleanup_file (converted_path l) w1
  end.

(** [upload_file] itself, without its decorators. [create_temp_dirs] runs
    outside the [try] statement, so what it raises leaves the handler. *)
Definition upload_file (req : UploadRequest) (env : Env) (w : World)
  : Result Exn Response * World :=
  match create_temp_dirs w with
  | (Raise e, w0) => (Raise (OSErr e), w0)
  | (Ok _, w0) =>
      let '(locals, exit, w1) := upload_try req env w0 in
      (Ok (upload_except exit), upload_finally locals w1)
  end.

(** ** The download handler and the index page *)

Definition download_file (filename : string) (w : World) : Response * World :=
  let safe_filename := Werkzeug.secure_filename filename in
  if decide (safe_filename ≠ filename) then
    (mkResponse 400 (Text "Invalid filename"), w)
  else
    let file_path := Py.os_path_join CONVERTED_FOLDER safe_filename in
    let '(present, w1) := os_path_exists file_path w in
    let '(regular, w2) := if present then os_path_isfile file_path w1 else (false, w1) in
    if negb present || negb regular then
      (mkResponse 404 (Text "File not found."), w2)
    else
      (* [remove_file] is registered first and runs once the view has returned *)
      let '(sent, w3) := send_from_directory CONVERTED_FOLDER safe_filename w2 in
      let response :=
        match sent with
        | Ok data => mkResponse 200 (SentFile safe_filename data true)
        | Raise _ => mkResponse 500 (Text "An error occurred while downloading the file.")
        end in
      (response, cleanup_file (Some file_path) w3).

Definition index (w : World) : Response * World :=
  match send_from_directory "." "index.html" w with
  | (Ok data, w1) => (mkResponse 200 (SentFile "index.html" data false), w1)
  | (Raise (OSErr FileNotFoundError), w1) =>
      (mkResponse 404 (Text "Error: index.html not found."), w1)
  | (Raise _, w1) => (mkResponse 500 (Text "An internal error occurred."), w1)
  end.

(** ** The application: routes, decorator, shared state *)

Record App : Type := mkApp {
  request_timestamps : gmap string (list Z);
  world : World
}.

(** [rate_limit(limit, window)(f)]: the decorated function. *)
Definition rate_limit (limit window : Z)
    (f : World -> Result Exn Response * World)
    (ip_address : string) (now : Z) (app : App) : Result Exn Response * App :=
  match rate_check limit window ip_address now (request_timestamps app) with
  | (false, store) =>
      (Ok (mkResponse 429 (JsonError (RateLimitExceeded window))),
       mkApp store (world app))
  | (true, store) =>
      let '(r, w) := f (world app) in (r, mkApp store w)
  end.

Inductive Request : Type :=
| GetIndex
| PostUpload (req : UploadRequest) (now : Z) (env : Env)
| GetDownload (filename : string).

(** Flask answers an exception that leaves a view with status 500. *)
Definition flask_response (r : Result Exn Response) : Response :=
  match r with
  | Ok resp => resp
  | Raise _ => mkResponse 500 (Text "Internal Server Error")
  end.

Definition serve (r : Request) (app : App) : Response * App :=
  match r with
  | GetIndex =>
      let '(resp, w) := index (world app) in
      (resp, mkApp (request_timestamps app) w)
  | PostUpload req now env =>
      let '(res, app') :=
        rate_limit RATE_LIMIT_REQUESTS RATE_LIMIT_WINDOW_SECONDS
          (upload_file req env) (remote_addr req) now app in
      (flask_response res, app')
  | GetDownload name =>
      let '(resp, w) := download_file name (world app) in
      (resp, mkApp (request_timestamps app) w)
  end.

(** ** Vocabulary of the properties *)

(** The path an upload reserves for its output, and the name it answers with. *)
Definition converted_filename_of (env : Env) : string :=
  uuid_str (uuid4 env) +:+ ".mp4".

Definition converted_path_of (env : Env) : string :=
  Py.os_path_join CONVERTED_FOLDER (converted_filename_of env).

(** The path an upload reserves for its input, and the encoder's command. *)
Definition upload_path_of (file : FileStorage) (env : Env) : string :=
  Py.os_path_join UPLOAD_FOLDER
    (temp_filename_of (filename file) (uuid_str (uuid4 env))).

Definition command_of (req : UploadRequest) (file : FileStorage) (env : Env)
  : list string :=
  ffmpeg_command (upload_path_of file env) (converted_path_of env)
    (Py.lower (default "medium" (form_compression req)))
    (Py.lower (default "original" (form_resolution req))).

(** What one call of [cleanup_file] adds to the log. *)
Definition cleanup_events (filepath : option string) (m : gmap string Node)
  : list Event :=
  EvCleanup filepath ::
  match filepath with
  | Some p =>
      if Py.truthy p then
        EvExists p :: (if bool_decide (is_Some (m !! p)) then [EvRemove p] else [])
      else []
  | None => []
  end.

(** [os.makedirs(p, exist_ok=True)] on the map, when it does not raise. *)
Definition ensure_dir (p : string) (m : gmap string Node) : gmap string Node :=
  match m !! p with
  | None => <[p := Dir]> m
  | Some _ => m
  end.

(** The path a file-system event touches. *)
Definition event_path (e : Event) : option string :=
  match e with
  | EvMakedirs p | EvExists p | EvIsfile p | EvRemove p | EvSave p | EvSend p => Some p
  | EvRun _ | EvCleanup _ => None
  end.

(** Names that stay inside the directory they are joined to: no separator,
    no leading dot, only characters of the class [A-Za-z0-9_.-]. *)
Definition plain_name (name : string) : Prop :=
  Forall (λ c, Werkzeug.filename_char c = true) (Py.chars name)
  ∧ ¬ Py.contains "/" name
  ∧ head (Py.chars name) ≠ Some "."%char.

(** A sequence of limiter calls [(client, time)], from a given store. *)
Fixpoint run (limit window : Z) (calls : list (string * Z))
    (store : gmap string (list Z)) : list bool * gmap string (list Z) :=
  match calls with
  | [] => ([], store)
  | (ip, now) :: rest =>
      let '(ok, store1) := rate_check limit window ip now store in
      let '(oks, store2) := run limit window rest store1 in
      (ok :: oks, store2)
  end.

(** The times of the accepted calls of client [c]. *)
Fixpoint accepted (c : string) (calls : list (string * Z)) (oks : list bool) : list Z :=
  match calls, oks with
  | (ip, now) :: calls', ok :: oks' =>
      if ok && bool_decide (ip = c) then now :: accepted c calls' oks'
      else accepted c calls' oks'
  | _, _ => []
  end.

(** How many of [times] fall in the interval [a <= t < a + window]. *)
Definition within (a window : Z) (times : list Z) : nat :=
  length (filter (λ t, a ≤ t < a + window) times).

(** Sample requests and environments. *)
Definition sample_upload : UploadRequest :=
  mkUpload "203.0.113.7" (Some (mkFile "movie.MP4" "RAW-VIDEO")) (Some 9)
    (Some "LOW") (Some "1080p").

Definition sample_uuid : N := 0x123e4567e89b12d3a456426614174000.

Definition encoder_ok : Env :=
  mkEnv sample_uuid (λ _ _, Exited 0 (Some "MP4-VIDEO")).

Definition encoder_failing : Env :=
  mkEnv sample_uuid (λ _ _, Exited 1 (Some "MP4-VID")).

Definition empty_world : World := mkWorld ∅ [].

Definition sample_input_path : string :=
  "uploads/123e4567-e89b-12d3-a456-426614174000.mp4".

Definition sample_output_path : string :=
  "converted/123e4567-e89b-12d3-a456-426614174000.mp4".

(** Sample traffic: five requests of one client at one instant. *)
Definition burst_calls : list (string * Z) :=
  replicate 5 ("203.0.113.7", 1700000000).

Definition burst_store : gmap string (list Z) :=
  (run RATE_LIMIT_REQUESTS RATE_LIMIT_WINDOW_SECONDS burst_calls ∅).2.

(** Two stores that no call at or after time [T] can tell apart. *)
Definition alike (window T : Z) (s1 s2 : gmap string (list Z)) : Prop :=
  ∀ c t, T ≤ t →
    filter (λ ts, t - ts < window) (s1 !!! c) = filter (λ ts, t - ts < window) (s2 !!! c).

(** Stores the limiter can be in: it starts empty and only [rate_check] writes. *)
Inductive reachable (limit window : Z) : gmap string (list Z) -> Prop :=
| reachable_empty : reachable limit window ∅
| reachable_step store ip now :
    reachable limit window store ->
    reachable limit window (rate_check limit window ip now store).2.

(** ** The specification's wording

    Definitions that follow the words of the specification rather than the
    code; the properties compare the two. *)

Module Spec.

(** The limiter's step as the specification words it: timestamps older than
    [now - window] are discarded. *)
Definition rate_check (limit window : Z) (client : string) (now : Z)
    (store : gmap string (list Z)) : bool * gmap string (list Z) :=
  let remaining := filter (λ ts, ¬ ts < now - window) (store !!! client) in
  if decide (limit ≤ Z.of_nat (length remaining))
  then (false, <[client := remaining]> store)
  else (true, <[client := remaining ++ [now]]> store).

Inductive ValidationError : Type :=
| MissingFile | EmptyFilename | BadExtension | Oversize.

(** The extension of a name: what follows its last dot, if it has one. *)
Fixpoint after_last_dot (cur : option (list ascii)) (l : list ascii)
  : option (list ascii) :=
  match l with
  | [] => cur
  | c :: l' =>
      if Ascii.eqb c "." then after_last_dot (Some []) l'
      else after_last_dot ((λ e, e ++ [c]) <$> cur) l'
  end.

Definition extension (name : string) : option string :=
  Py.str <$> after_last_dot None (Py.chars name).

Definition recognized (ext : string) : bool :=
  existsb (λ a, String.eqb (Py.lower ext) a) ALLOWED_EXTENSIONS.

(** The four checks, in order, the first failure deciding. *)
Definition validate (req : UploadRequest) : Result ValidationError FileStorage :=
  match videoFile req with
  | None => Raise MissingFile
  | Some file =>
      if String.eqb (filename file) "" then Raise EmptyFilename
      else match extension (filename file) with
           | None => Raise BadExtension
           | Some ext =>
               if negb (recognized ext) then Raise BadExtension
               else match content_length req with
                    | Some n => if MAX_CONTENT_LENGTH <? n then Raise Oversize else Ok file
                    | None => Ok file
                    end
           end
  end.

Definition rejection (e : ValidationError) : Response :=
  match e with
  | MissingFile => mkResponse 400 (JsonError NoFilePart)
  | EmptyFilename => mkResponse 400 (JsonError NoFileSelected)
  | BadExtension => mkResponse 400 (JsonError InvalidFileType)
  | Oversize => mkResponse 413 (JsonError FileTooLarge)
  end.

(** Conversion options as a value object with defaults. *)
Inductive CompressionLevel : Type := Low | Medium | High.
Inductive TargetResolution : Type := Original | P480 | P720 | P1080.

Definition compression_level (field : option string) : CompressionLevel :=
  match field with
  | None => Medium
  | Some v => if String.eqb (Py.lower v) "low" then Low
              else if String.eqb (Py.lower v) "high" then High
              else Medium
  end.

Definition target_resolution (field : option string) : TargetResolution :=
  match field with
  | None => Original
  | Some v => if String.eqb (Py.lower v) "480p" then P480
              else if String.eqb (Py.lower v) "720p" then P720
              else if String.eqb (Py.lower v) "1080p" then P1080
              else Original
  end.

Definition crf (c : CompressionLevel) : string :=
  match c with Low => "18" | Medium => "23" | High => "28" end.

Definition height (r : TargetResolution) : option string :=
  match r with
  | Original => None
  | P480 => Some "480" | P720 => Some "720" | P1080 => Some "1080"
  end.

Definition scale_filter (r : TargetResolution) : list string :=
  match height r with
  | Some h => ["-vf"; "scale=-2:" +:+ h]
  | None => []
  end.

Definition command (input output : string) (c : CompressionLevel)
    (r : TargetResolution) : list string :=
  ["ffmpeg"; "-i"; input; "-crf"; crf c] ++ scale_filter r ++
  ["-codec:v"; "libx264"; "-preset"; "medium"; "-codec:a"; "aac";
   "-b:a"; "128k"; "-movflags"; "+faststart"; "-y"; "-hide_banner";
   "-loglevel"; "error"; output].

(** The canonical spelling of an option, as a form field. *)
Definition compression_field (c : CompressionLevel) : option string :=
  Some match c with Low => "low" | Medium => "medium" | High => "high" end.

Definition resolution_field (r : TargetResolution) : option string :=
  Some match r with
       | Original => "original" | P480 => "480p" | P720 => "720p" | P1080 => "1080p"
       end.

End Spec.

(** ** Runs of the application *)

(** The calls of one client, in order. *)
Definition calls_of (c : string) (calls : list (string * Z)) : list (string * Z) :=
  filter (λ x, x.1 = c) calls.

(** How many of [times] are younger than [window] at time [now]. *)
Definition recent (window now : Z) (times : list Z) : nat :=
  length (filter (λ ts, now - ts < window) times).

(** The requests served one after the other. *)
Fixpoint serve_all (rs : list Request) (app : App) : list Response * App :=
  match rs with
  | [] => ([], app)
  | r :: rs' =>
      let '(resp, app1) := serve r app in
      let '(resps, app2) := serve_all rs' app1 in
      (resp :: resps, app2)
  end.

(** The characters sanitisation keeps wherever they stand: those of the class
    [A-Za-z0-9_.-] that are neither a dot nor an underscore. *)
Definition kept_char (c : ascii) : bool :=
  Werkzeug.filename_char c && negb (Werkzeug.dot_or_underscore c).

(** The command lines handed to [subprocess.run], in the order of the calls. *)
Definition runs (l : list Event) : list (list string) :=
  omap (λ ev, match ev with EvRun cmd => Some cmd | _ => None end) l.

(** More sample data. *)
Definition oversize_upload : UploadRequest :=
  mkUpload "203.0.113.7" (Some (mkFile "movie.mp4" "RAW-VIDEO")) (Some 104857601)
    None None.

Definition oversize_wrong_type : UploadRequest :=
  mkUpload "203.0.113.7" (Some (mkFile "movie.exe" "MZ")) (Some 999999999) None None.

Definition upload_odd_options : UploadRequest :=
  mkUpload "203.0.113.7" (Some (mkFile "movie.MP4" "RAW-VIDEO")) (Some 9)
    (Some "ultra") (Some "4k").

Definition upload_without_file : UploadRequest :=
  mkUpload "203.0.113.7" None None None None.

Definition sample_file : FileStorage := mkFile "movie.MP4" "RAW-VIDEO".

Definition world_with_other_file : World :=
  mkWorld {["converted/other.mp4" := File "KEEP"]} [].

(** An encoder that answers only to the program name it is called by. *)
Definition encoder_by_name (cmd : list string) (m : gmap string Node) : EncoderOutcome :=
  match cmd with
  | "ffmpeg" :: _ => Exited 0 (Some "MP4-VIDEO")
  | _ => Exited 1 None
  end.

(** * Properties *)

(** ** Sanity checks of the library models *)

Example secure_filename_plain :
  Werkzeug.secure_filename "My cool movie.mov" = "My_cool_movie.mov".
Proof. reflexivity. Qed.

Example secure_filename_traversal :
  Werkzeug.secure_filename "../../../etc/passwd" = "etc_passwd".
Proof. reflexivity. Qed.

Example os_path_join_relative :
  Py.os_path_join "converted" "a.mp4" = "converted/a.mp4".
Proof. reflexivity. Qed.

Example os_path_join_absolute :
  Py.os_path_join "converted" "/etc/passwd" = "/etc/passwd".
Proof. reflexivity. Qed.

Example rsplit1_last_dot : Py.rsplit1 "." "a.b.MP4" = ["a.b"; "MP4"].
Proof. reflexivity. Qed.

Example uuid_str_format :
  uuid_str 0x123e4567e89b12d3a456426614174000 = "123e4567-e89b-12d3-a456-426614174000".
Proof. reflexivity. Qed.

(** ** Strings, names and paths *)

Section Strings.
Import Py Werkzeug.

Lemma str_chars (s : string) : str (chars s) = s.
Proof. apply String.string_of_list_ascii_of_string. Qed.

Lemma chars_str (l : list ascii) : chars (str l) = l.
Proof. apply String.list_ascii_of_string_of_list_ascii. Qed.

Lemma chars_append (a b : string) : chars (a +:+ b) = chars a ++ chars b.
Proof. induction a as [|c a IH]; simpl; [done|]. unfold chars in *. by rewrite IH. Qed.

Lemma chars_inj (a b : string) : chars a = chars b → a = b.
Proof. intros H. by rewrite <- (str_chars a), <- (str_chars b), H. Qed.

(** Facts about single characters, by enumeration of the 256 codes. *)
Lemma filename_char_ascii (c : ascii) :
  filename_char c = true →
  is_ascii c = true ∧ Ascii.eqb c "/" = false ∧ is_space c = false.
Proof. destruct c as [[] [] [] [] [] [] [] []]; vm_compute; intros; done. Qed.

Lemma hex_digit_char (d : N) :
  filename_char (hex_digit d) = true ∧ dot_or_underscore (hex_digit d) = false.
Proof.
  unfold hex_digit.
  repeat match goal with
         | |- context [match ?x with _ => _ end] => destruct x
         end; vm_compute; done.
Qed.

(** *** [lstrip] and [strip] *)

Lemma lstrip_suffix (p : ascii → bool) (l : list ascii) :
  ∃ k, l = k ++ lstrip p l.
Proof.
  induction l as [|c l [k IH]]; simpl; [by exists []|].
  destruct (p c); [|by exists []].
  exists (c :: k). simpl. by f_equal.
Qed.

Lemma lstrip_head (p : ascii → bool) (l : list ascii) (c : ascii) :
  head (lstrip p l) = Some c → p c = false.
Proof.
  induction l as [|x l IH]; simpl; [done|].
  destruct (p x) eqn:Hx; [done|]. simpl. by intros [= <-].
Qed.

Lemma lstrip_id (p : ascii → bool) (l : list ascii) :
  (∀ c, head l = Some c → p c = false) → lstrip p l = l.
Proof. destruct l as [|x l]; simpl; [done|]. intros H. by rewrite (H x eq_refl). Qed.

Lemma strip_prefix (p : ascii → bool) (l : list ascii) :
  ∃ k, lstrip p l = strip p l ++ k.
Proof.
  unfold strip. destruct (lstrip_suffix p (rev (lstrip p l))) as [k Hk].
  exists (rev k). rewrite <- rev_app_distr, <- Hk. by rewrite rev_involutive.
Qed.

Lemma strip_head (p : ascii → bool) (l : list ascii) (c : ascii) :
  head (strip p l) = Some c → p c = false.
Proof.
  destruct (strip_prefix p l) as [k Hk]. intros Hhd.
  apply (lstrip_head p l). rewrite Hk.
  destruct (strip p l); [done|]. done.
Qed.

Lemma strip_Forall (P : ascii → Prop) (p : ascii → bool) (l : list ascii) :
  Forall P l → Forall P (strip p l).
Proof.
  intros Hl. destruct (strip_prefix p l) as [k Hk].
  destruct (lstrip_suffix p l) as [k' Hk'].
  rewrite Hk' in Hl. apply Forall_app in Hl as [_ Hl].
  rewrite Hk in Hl. by apply Forall_app in Hl as [Hl _].
Qed.

Lemma strip_id (p : ascii → bool) (l : list ascii) :
  (∀ c, head l = Some c → p c = false) →
  (∀ c, head (rev l) = Some c → p c = false) →
  strip p l = l.
Proof.
  intros Hh Hl. unfold strip. rewrite (lstrip_id p l Hh).
  rewrite (lstrip_id p (rev l) Hl). apply rev_involutive.
Qed.

(** *** What [secure_filename] returns *)

Lemma secure_chars_Forall (l : list ascii) :
  Forall (λ c, filename_char c = true) (secure_chars l).
Proof.
  unfold secure_chars. apply strip_Forall.
  apply List.Forall_forall. intros c Hc.
  by apply List.filter_In in Hc as [_ Hc].
Qed.

Lemma secure_chars_head (l : list ascii) (c : ascii) :
  head (secure_chars l) = Some c → dot_or_underscore c = false.
Proof. apply strip_head. Qed.

Lemma Forall_filename_no_slash (l : list ascii) :
  Forall (λ c, filename_char c = true) l → existsb (Ascii.eqb "/") l = false.
Proof.
  induction 1 as [|c l Hc _ IH]; [done|].
  cbn [existsb]. rewrite IH, orb_false_r.
  apply filename_char_ascii in Hc as (_ & Hc & _).
  by rewrite Ascii.eqb_sym.
Qed.

(** A name that sanitisation leaves alone is a plain name. *)
Lemma secure_fixed_plain (name : string) :
  secure_filename name = name → plain_name name.
Proof.
  intros Hfix. unfold secure_filename in Hfix.
  apply (f_equal chars) in Hfix. rewrite chars_str in Hfix.
  unfold plain_name, contains. rewrite <- Hfix.
  split; [apply secure_chars_Forall|]. split.
  - rewrite Forall_filename_no_slash; [intros H; exact H|apply secure_chars_Forall].
  - intros Hhd. by apply secure_chars_head in Hhd.
Qed.

(** *** Names that [secure_filename] leaves alone *)

Lemma filter_id {A : Type} (f : A → bool) (l : list A) :
  Forall (λ x, f x = true) l → List.filter f l = l.
Proof. induction 1 as [|x l Hx _ IH]; simpl; [done|]. by rewrite Hx, IH. Qed.

Lemma split_ws_one (l : list ascii) :
  l ≠ [] → Forall (λ c, is_space c = false) l → split_ws l = [l].
Proof.
  intros Hne Hl. induction Hl as [|c l Hc Hl IH]; [done|].
  simpl. rewrite Hc. destruct l as [|c' l']; [done|].
  inversion Hl as [|? ? Hc' _]; subst. rewrite Hc'.
  by rewrite IH.
Qed.

Lemma secure_chars_id (l : list ascii) :
  Forall (λ c, filename_char c = true) l →
  (∀ c, head l = Some c → dot_or_underscore c = false) →
  (∀ c, head (rev l) = Some c → dot_or_underscore c = false) →
  secure_chars l = l.
Proof.
  intros Hl Hh Hlast. unfold secure_chars.
  rewrite (filter_id is_ascii l) by (apply (Forall_impl _ _ _ Hl); intros c Hc;
                        by apply filename_char_ascii in Hc as (? & _)).
  replace (map (λ c, if Ascii.eqb c "/" then " "%char else c) l) with l.
  2:{ clear Hh Hlast. induction Hl as [|c l Hc _ IH]; simpl; [done|].
      apply filename_char_ascii in Hc as (_ & -> & _). by f_equal. }
  destruct l as [|x l'] eqn:El; [done|]. rewrite <- El in *.
  rewrite split_ws_one.
  - simpl. rewrite filter_id by done. by apply strip_id.
  - by rewrite El.
  - apply (Forall_impl _ _ _ Hl). intros c Hc.
    by apply filename_char_ascii in Hc as (_ & _ & ?).
Qed.

(** *** Paths under the two folders *)

Lemma os_path_join_under (folder name : string) :
  truthy folder = true → ends_with "/" folder = false →
  starts_with "/" name = false →
  os_path_join folder name = folder +:+ "/" +:+ name.
Proof. intros Hf He Hn. unfold os_path_join. by rewrite Hn, Hf, He. Qed.

Lemma plain_name_start (name : string) :
  plain_name name → starts_with "/" name = false.
Proof.
  intros (Hall & _ & _). destruct name as [|c s]; [done|]. simpl.
  inversion Hall as [|? ? Hc _]; subst.
  by apply filename_char_ascii in Hc as (_ & ? & _).
Qed.

Lemma converted_path_plain (name : string) :
  plain_name name →
  os_path_join CONVERTED_FOLDER name = "converted/" +:+ name.
Proof. intros Hp. by rewrite os_path_join_under by (done || by apply plain_name_start). Qed.

(** *** Minted names *)

Lemma hex_field_Forall (n : N) (hi len : nat) :
  Forall (λ c, filename_char c = true) (hex_field n hi len).
Proof.
  unfold hex_field. apply Forall_fmap, Forall_forall. intros k _. simpl.
  apply hex_digit_char.
Qed.

Lemma uuid_chars_Forall (n : N) : Forall (λ c, filename_char c = true) (uuid_chars n).
Proof.
  unfold uuid_chars.
  repeat first [apply hex_field_Forall | apply Forall_app; split
               | apply List.Forall_cons; [reflexivity|]].
Qed.

Lemma uuid_chars_head (n : N) :
  ∃ d l, uuid_chars n = hex_digit d :: l.
Proof. by eexists _, _. Qed.

Lemma uuid_str_start (n : N) (rest : string) :
  starts_with "/" (uuid_str n +:+ rest) = false.
Proof.
  destruct (uuid_chars_head n) as (d & l & Hu).
  unfold uuid_str. rewrite Hu. simpl.
  destruct (hex_digit_char d) as [Hc _].
  by apply filename_char_ascii in Hc as (_ & ? & _).
Qed.

Lemma minted_name_secure (n : N) :
  secure_filename (uuid_str n +:+ ".mp4") = uuid_str n +:+ ".mp4".
Proof.
  unfold secure_filename. apply chars_inj. rewrite chars_str.
  rewrite chars_append. unfold uuid_str. rewrite chars_str.
  apply secure_chars_id.
  - apply Forall_app. split; [apply uuid_chars_Forall|].
    by repeat constructor.
  - destruct (uuid_chars_head n) as (d & l & ->). simpl. intros c [= <-].
    apply hex_digit_char.
  - rewrite rev_app_distr. simpl. by intros c [= <-].
Qed.

End Strings.

(** ** Validation *)

Section Validation.
Import Py.

Lemma after_last_dot_rsplit (l : list ascii) (cur : option (list ascii)) :
  Spec.after_last_dot cur l =
    match rsplit1_chars "." l with
    | Some (_, t) => Some t
    | None => (λ e, e ++ l) <$> cur
    end.
Proof.
  revert cur. induction l as [|c l IH]; intros cur; simpl.
  - destruct cur; simpl; by rewrite ?app_nil_r.
  - destruct (Ascii.eqb c ".") eqn:Hc; rewrite IH;
      destruct (rsplit1_chars "." l) as [[h t]|]; try done.
    destruct cur; simpl; [|done]. by rewrite <- app_assoc.
Qed.

Lemma contains_rsplit (l : list ascii) :
  existsb (Ascii.eqb ".") l = bool_decide (is_Some (rsplit1_chars "." l)).
Proof.
  induction l as [|c l IH]; [done|]. cbn [existsb rsplit1_chars].
  rewrite IH, (Ascii.eqb_sym "." c).
  destruct (rsplit1_chars "." l) as [[h t]|]; simpl.
  - by rewrite orb_true_r.
  - rewrite orb_false_r. by destruct (Ascii.eqb c ".").
Qed.

Lemma recognized_elem (ext : string) :
  Spec.recognized ext = bool_decide (lower ext ∈ ALLOWED_EXTENSIONS).
Proof.
  unfold Spec.recognized. generalize ALLOWED_EXTENSIONS as l.
  induction l as [|a l IH]; simpl; [done|]. rewrite IH.
  destruct (String.eqb_spec (lower ext) a) as [->|Hne]; simpl.
  - symmetry. apply bool_decide_eq_true. left.
  - apply bool_decide_ext. rewrite elem_of_cons. naive_solver.
Qed.

(** [allowed_file] looks at what follows the last dot, lower-cased. *)
Lemma allowed_file_extension (name : string) :
  allowed_file name =
    match Spec.extension name with
    | Some ext => Spec.recognized ext
    | None => false
    end.
Proof.
  unfold allowed_file, Spec.extension, contains, rsplit1.
  rewrite contains_rsplit, after_last_dot_rsplit.
  destruct (rsplit1_chars "." (chars name)) as [[h t]|]; simpl; [|done].
  by rewrite recognized_elem.
Qed.

Lemma oversize_check (n : Z) :
  bool_decide (n ≠ 0) && bool_decide (n > MAX_CONTENT_LENGTH)
  = (MAX_CONTENT_LENGTH <? n).
Proof.
  unfold MAX_CONTENT_LENGTH, MAX_FILE_SIZE_MB.
  destruct (Z.ltb_spec (100 * 1024 * 1024) n);
    repeat case_bool_decide; simpl; try done; lia.
Qed.

End Validation.

Section Extension.
Import Py.

Lemma rsplit1_chars_None (c : ascii) (l : list ascii) :
  rsplit1_chars c l = None → existsb (Ascii.eqb c) l = false.
Proof.
  induction l as [|x l IH]; [done|]. cbn [rsplit1_chars existsb].
  destruct (rsplit1_chars c l) as [[h t]|]; [done|].
  destruct (Ascii.eqb_spec x c) as [->|Hne]; [done|]. intros _.
  rewrite IH by done. rewrite orb_false_r. apply Ascii.eqb_neq. congruence.
Qed.

Lemma rsplit1_chars_Some (c : ascii) (l h t : list ascii) :
  rsplit1_chars c l = Some (h, t) ↔
  l = h ++ c :: t ∧ existsb (Ascii.eqb c) t = false.
Proof.
  revert h t. induction l as [|x l IH]; intros h t; cbn [rsplit1_chars].
  - split; [done|]. intros [Hl _]. by destruct h.
  - destruct (rsplit1_chars c l) as [[h' t']|] eqn:Hr.
    + destruct (proj1 (IH h' t') eq_refl) as [Hl' Ht']. split.
      * intros [= <- <-]. by rewrite Hl'.
      * intros [Hl Ht]. destruct h as [|y h]; cbn [app] in Hl.
        -- injection Hl as -> ->. rewrite Hl', existsb_app in Ht.
           cbn [existsb] in Ht. rewrite Ascii.eqb_refl, orb_true_r in Ht. done.
        -- injection Hl as -> Hl.
           assert (Some (h', t') = Some (h, t)) as [= -> ->] by by apply IH.
           done.
    + assert (∀ h2, l ≠ h2 ++ c :: t ∨ existsb (Ascii.eqb c) t = true) as Hno.
      { intros h2. destruct (existsb (Ascii.eqb c) t) eqn:Ht; [by right|left].
        intros Hl. assert (None = Some (h2, t)) as Habs by by apply IH. done. }
      destruct (Ascii.eqb_spec x c) as [->|Hne].
      * split.
        -- intros [= <- <-]. split; [done|]. by apply rsplit1_chars_None.
        -- intros [Hl Ht]. destruct h as [|y h]; cbn [app] in Hl.
           ++ by injection Hl as ->.
           ++ injection Hl as -> Hl. destruct (Hno h) as [?|?]; congruence.
      * split; [done|]. intros [Hl Ht]. destruct h as [|y h]; cbn [app] in Hl.
        -- by injection Hl as ->.
        -- injection Hl as -> Hl. destruct (Hno h) as [?|?]; congruence.
Qed.

(** The extension check, said without reference to [rsplit]. *)
Lemma allowed_file_declarative (name : string) :
  allowed_file name = true ↔
  ∃ stem ext, name = stem +:+ "." +:+ ext
              ∧ contains "." ext = false
              ∧ lower ext ∈ ALLOWED_EXTENSIONS.
Proof.
  unfold allowed_file, contains, rsplit1. rewrite contains_rsplit.
  destruct (rsplit1_chars "." (chars name)) as [[h t]|] eqn:Hr; simpl.
  - apply rsplit1_chars_Some in Hr as [Hl Ht].
    rewrite bool_decide_eq_true. split.
    + intros Hin. exists (str h), (str t). rewrite chars_str. split; [|done].
      apply chars_inj. rewrite !chars_append, !chars_str. done.
    + intros (stem & ext & -> & Hext & Hin).
      rewrite !chars_append in Hl. simpl in Hl.
      assert (rsplit1_chars "." (chars stem ++ "."%char :: chars ext)
              = Some (chars stem, chars ext)) as H1 by by apply rsplit1_chars_Some.
      assert (rsplit1_chars "." (chars stem ++ "."%char :: chars ext)
              = Some (h, t)) as H2 by (rewrite Hl; by apply rsplit1_chars_Some).
      rewrite H1 in H2. injection H2 as <- <-. by rewrite str_chars.
  - split; [done|]. intros (stem & ext & -> & Hext & _).
    rewrite !chars_append in Hr. simpl in Hr.
    assert (rsplit1_chars "." (chars stem ++ "."%char :: chars ext)
            = Some (chars stem, chars ext)) as H1 by by apply rsplit1_chars_Some.
    congruence.
Qed.

End Extension.

(** ** The file-system helpers *)

Section Helpers.

Lemma cleanup_file_log (filepath : option string) (w : World) :
  log (cleanup_file filepath w) = log w ++ cleanup_events filepath (fs w).
Proof.
  unfold cleanup_file, cleanup_events, os_path_exists, os_remove, emit.
  destruct filepath as [p|]; simpl; [|done].
  destruct (Py.truthy p); simpl; [|done].
  case_bool_decide as Hp; simpl.
  - destruct Hp as [n Hn]. rewrite Hn.
    destruct n; simpl; by rewrite <- !app_assoc.
  - by rewrite <- !app_assoc.
Qed.

Lemma cleanup_file_fs (filepath : option string) (w : World) :
  fs (cleanup_file filepath w) =
    match filepath with
    | Some p => if Py.truthy p && is_file (fs w) p then delete p (fs w) else fs w
    | None => fs w
    end.
Proof.
  unfold cleanup_file, os_path_exists, os_remove, emit, is_file.
  destruct filepath as [p|]; simpl; [|done].
  destruct (Py.truthy p); simpl; [|done].
  case_bool_decide as Hp; simpl.
  - destruct Hp as [n Hn]. rewrite Hn. by destruct n.
  - apply eq_None_not_Some in Hp. by rewrite Hp.
Qed.

Lemma cleanup_file_none (w : World) :
  cleanup_file None w = mkWorld (fs w) (log w ++ [EvCleanup None]).
Proof. done. Qed.

(** After [cleanup_file] no regular file is left at a non-empty path. *)
Lemma cleanup_file_released (p : string) (w : World) :
  Py.truthy p = true →
  is_file (fs (cleanup_file (Some p) w)) p = false
  ∧ (fs w !! p ≠ Some Dir → fs (cleanup_file (Some p) w) !! p = None).
Proof.
  intros Hp. rewrite cleanup_file_fs, Hp. simpl. unfold is_file.
  destruct (fs w !! p) as [[|data]|] eqn:Hl; simpl.
  - by rewrite Hl.
  - rewrite lookup_delete_eq. done.
  - by rewrite Hl.
Qed.

Lemma cleanup_file_other (fp : option string) (q : string) (w : World) :
  fp ≠ Some q → fs (cleanup_file fp w) !! q = fs w !! q.
Proof.
  intros Hne. rewrite cleanup_file_fs. destruct fp as [p|]; [|done].
  destruct (Py.truthy p && is_file (fs w) p); [|done].
  apply lookup_delete_ne. congruence.
Qed.

(** [create_temp_dirs] touches the two folders only. *)
Lemma os_makedirs_ok (p : string) (w w' : World) :
  os_makedirs p w = (Ok tt, w') →
  fs w' = ensure_dir p (fs w) ∧ log w' = log w ++ [EvMakedirs p]
  ∧ fs w' !! p = Some Dir.
Proof.
  unfold os_makedirs, ensure_dir, emit. simpl.
  destruct (fs w !! p) as [[|data]|] eqn:Hl; intros [= <-]; simpl; try done.
  by rewrite lookup_insert_eq.
Qed.

Lemma create_temp_dirs_ok (w w0 : World) :
  create_temp_dirs w = (Ok tt, w0) →
  fs w0 = ensure_dir CONVERTED_FOLDER (ensure_dir UPLOAD_FOLDER (fs w))
  ∧ log w0 = log w ++ [EvMakedirs UPLOAD_FOLDER; EvMakedirs CONVERTED_FOLDER].
Proof.
  unfold create_temp_dirs.
  destruct (os_makedirs UPLOAD_FOLDER w) as [[[]|e] w1] eqn:H1; [|done].
  intros H2. apply os_makedirs_ok in H1 as (F1 & L1 & _).
  apply os_makedirs_ok in H2 as (F2 & L2 & _).
  rewrite F2, F1, L2, L1, <- app_assoc. done.
Qed.

Lemma create_temp_dirs_raise (w w0 : World) (e : OSError) :
  create_temp_dirs w = (Raise e, w0) →
  fs w0 = ensure_dir UPLOAD_FOLDER (fs w)
  ∧ ∃ evs, log w0 = log w ++ evs ∧ ∀ ev, ev ∈ evs → ∃ p, ev = EvMakedirs p.
Proof.
  unfold create_temp_dirs, os_makedirs, ensure_dir, emit. cbn [fs log].
  destruct (fs w !! UPLOAD_FOLDER) as [[|data]|] eqn:H1; cbn [fs log].
  - destruct (fs w !! CONVERTED_FOLDER) as [[|data]|] eqn:H2; intros [= <- <-];
      cbn [fs log]; split; try done.
    exists [EvMakedirs UPLOAD_FOLDER; EvMakedirs CONVERTED_FOLDER].
    rewrite <- app_assoc. split; [done|].
    intros ev. rewrite !elem_of_cons, elem_of_nil. naive_solver.
  - intros [= <- <-]. cbn [fs log]. split; [done|].
    exists [EvMakedirs UPLOAD_FOLDER]. split; [done|].
    intros ev. rewrite !elem_of_cons, elem_of_nil. naive_solver.
  - rewrite lookup_insert_ne by done.
    destruct (fs w !! CONVERTED_FOLDER) as [[|data]|] eqn:H2; intros [= <- <-];
      cbn [fs log]; split; try done.
    exists [EvMakedirs UPLOAD_FOLDER; EvMakedirs CONVERTED_FOLDER].
    rewrite <- app_assoc. split; [done|].
    intros ev. rewrite !elem_of_cons, elem_of_nil. naive_solver.
Qed.

Lemma ensure_dir_other (p q : string) (m : gmap string Node) :
  p ≠ q → ensure_dir p m !! q = m !! q.
Proof.
  intros Hne. unfold ensure_dir. destruct (m !! p); [done|].
  by apply lookup_insert_ne.
Qed.

Lemma ensure_dir_is_file (p q : string) (m : gmap string Node) :
  is_file (ensure_dir p m) q = is_file m q.
Proof.
  unfold is_file, ensure_dir. destruct (m !! p) eqn:Hp; [done|].
  destruct (decide (p = q)) as [->|Hne].
  - by rewrite lookup_insert_eq, Hp.
  - by rewrite lookup_insert_ne.
Qed.

End Helpers.

(** ** The upload handler, stage by stage *)

Section Upload.

Lemma output_of_command (up cp c r : string) :
  output_of (ffmpeg_command up cp c r) = cp.
Proof. unfold ffmpeg_command, output_of. repeat case_decide; reflexivity. Qed.

Lemma output_of_command_of (req : UploadRequest) (file : FileStorage) (env : Env) :
  output_of (command_of req file env) = converted_path_of env.
Proof. apply output_of_command. Qed.

Lemma upload_path_under (file : FileStorage) (env : Env) :
  upload_path_of file env =
    "uploads/" +:+ temp_filename_of (filename file) (uuid_str (uuid4 env)).
Proof.
  unfold upload_path_of, temp_filename_of.
  rewrite os_path_join_under; [done..|]. apply uuid_str_start.
Qed.

Lemma converted_path_under (env : Env) :
  converted_path_of env = "converted/" +:+ converted_filename_of env.
Proof.
  unfold converted_path_of, converted_filename_of.
  rewrite os_path_join_under; [done..|]. apply uuid_str_start.
Qed.

Lemma paths_distinct (file : FileStorage) (env : Env) :
  upload_path_of file env ≠ converted_path_of env.
Proof. rewrite upload_path_under, converted_path_under. done. Qed.

Lemma upload_path_truthy (file : FileStorage) (env : Env) :
  Py.truthy (upload_path_of file env) = true.
Proof. by rewrite upload_path_under. Qed.

Lemma converted_path_truthy (env : Env) :
  Py.truthy (converted_path_of env) = true.
Proof. by rewrite converted_path_under. Qed.

Lemma request_files_within (req : UploadRequest) :
  (∀ n, content_length req = Some n → n ≤ MAX_CONTENT_LENGTH) →
  request_files req = Ok (videoFile req).
Proof.
  intros Hn. unfold request_files. destruct (content_length req) as [n|]; [|done].
  rewrite decide_False; [done|]. specialize (Hn n eq_refl). lia.
Qed.

Lemma request_files_too_large (req : UploadRequest) (n : Z) :
  content_length req = Some n → n > MAX_CONTENT_LENGTH →
  request_files req = Raise RequestEntityTooLarge.
Proof. intros Hn Hbig. unfold request_files. rewrite Hn. by rewrite decide_True. Qed.

Lemma request_files_cases (req : UploadRequest) :
  (request_files req = Ok (videoFile req)
   ∧ ∀ n, content_length req = Some n → n ≤ MAX_CONTENT_LENGTH)
  ∨ (request_files req = Raise RequestEntityTooLarge
     ∧ ∃ n, content_length req = Some n ∧ n > MAX_CONTENT_LENGTH).
Proof.
  unfold request_files. destruct (content_length req) as [n|].
  - case_decide; [right; split; [done|by exists n]|left; split; [done|]].
    intros ? [= <-]. lia.
  - left. split; [done|]. intros ? [=].
Qed.

(** A request the four checks let through declares no excessive length. *)
Lemma validated_within (req : UploadRequest) (file : FileStorage) :
  Spec.validate req = Ok file → request_files req = Ok (Some file).
Proof.
  unfold Spec.validate, request_files.
  destruct (videoFile req) as [f|]; [|done].
  destruct (String.eqb (filename f) ""); [done|].
  destruct (Spec.extension (filename f)); [|done].
  destruct (negb _); [done|].
  destruct (content_length req) as [n|]; [|by intros [= ->]].
  destruct (Z.ltb_spec MAX_CONTENT_LENGTH n); [done|].
  intros [= ->]. rewrite decide_False; [done|lia].
Qed.

(** A request that declares an excessive length fails one of the four
    checks, the last one if no other. *)
Lemma too_large_not_validated (req : UploadRequest) (e : Exn) (file : FileStorage) :
  request_files req = Raise e → Spec.validate req ≠ Ok file.
Proof. intros Hr Hv. apply validated_within in Hv. congruence. Qed.

(** The [try] body, evaluated symbolically along the specification's
    validation order. The body is parsed before the first check, so a
    request that declares an excessive length leaves the [try] body by the
    exception that [request.files] raises. *)
Lemma upload_try_stages (req : UploadRequest) (env : Env) (w0 : World) :
  match Spec.validate req with
  | Raise e =>
      upload_try req env w0 =
        (mkLocals None None None,
         match request_files req with
         | Raise x => Raised x
         | Ok _ => Return (Spec.rejection e)
         end, w0)
  | Ok file =>
      let up := upload_path_of file env in
      let cp := converted_path_of env in
      let cmd := command_of req file env in
      let saved := <[up := File (stream file)]> (fs w0) in
      videoFile req = Some file ∧
      if decide (fs w0 !! up = Some Dir) then
        upload_try req env w0 =
          (mkLocals (Some up) (Some cp) None, Raised (OSErr IsADirectoryError),
           mkWorld (fs w0) (log w0 ++ [EvSave up]))
      else
        match ffmpeg env cmd saved with
        | NotStarted e =>
            upload_try req env w0 =
              (mkLocals (Some up) (Some cp) None, Raised (OSErr e),
               mkWorld saved (log w0 ++ [EvSave up; EvRun cmd]))
        | Exited rc written =>
            upload_try req env w0 =
              (if decide (rc = 0)
               then (mkLocals (Some up) (Some cp) (Some rc),
                     Return (mkResponse 200 (JsonFilename (converted_filename_of env))))
               else (mkLocals (Some up) (Some cp) None, Raised (CalledProcessError rc)),
               mkWorld (encoder_write cp written saved) (log w0 ++ [EvSave up; EvRun cmd]))
        end
  end.
Proof.
  destruct (request_files_cases req) as [[Hf Hn]|[Hf (n & Hn & Hbig)]].
  - (* the body is parsed *)
    unfold Spec.validate, upload_try. rewrite Hf.
    destruct (videoFile req) as [file|]; [|done].
    destruct (String.eqb_spec (filename file) "") as [Hne|Hne].
    { by rewrite decide_True. }
    rewrite decide_False by done.
    rewrite allowed_file_extension.
    destruct (Spec.extension (filename file)) as [ext|]; [|done].
    destruct (Spec.recognized ext); [|done]. cbn [negb].
    assert (match content_length req with
            | Some n => bool_decide (n ≠ 0) && bool_decide (n > MAX_CONTENT_LENGTH)
            | None => false
            end = false) as ->.
    { destruct (content_length req) as [n|]; [|done]. specialize (Hn n eq_refl).
      rewrite oversize_check. apply Z.ltb_ge. lia. }
    assert (match content_length req with
            | Some n => if MAX_CONTENT_LENGTH <? n then Raise Spec.Oversize else Ok file
            | None => Ok file
            end = @Ok Spec.ValidationError _ file) as ->.
    { destruct (content_length req) as [n|]; [|done]. specialize (Hn n eq_refl).
      destruct (Z.ltb_spec MAX_CONTENT_LENGTH n); [lia|done]. }
    split; [done|].
    fold (upload_path_of file env). fold (converted_filename_of env).
    fold (converted_path_of env). fold (command_of req file env).
    unfold file_save, subprocess_run, emit. cbn [fs log].
    case_decide as Hd.
    + by rewrite Hd.
    + destruct (fs w0 !! upload_path_of file env) as [[|data]|] eqn:Hup; [done|..];
        cbv beta iota zeta; cbn [fs log]; rewrite output_of_command_of;
        (destruct (ffmpeg env (command_of req file env) _) as [rc wr|e];
         [case_decide|]; cbv beta iota zeta; cbn [fs log];
         by rewrite <- app_assoc).
  - (* [request.files] raises *)
    destruct (Spec.validate req) as [file|e] eqn:Hv.
    { by apply (too_large_not_validated req _ file) in Hf. }
    unfold upload_try. by rewrite Hf.
Qed.

End Upload.

Section UploadRuns.

Lemma upload_file_entered (req : UploadRequest) (env : Env) (w w0 : World) :
  create_temp_dirs w = (Ok tt, w0) →
  upload_file req env w =
    (Ok (upload_except (upload_try req env w0).1.2),
     upload_finally (upload_try req env w0).1.1 (upload_try req env w0).2).
Proof.
  intros Hd. unfold upload_file. rewrite Hd.
  by destruct (upload_try req env w0) as [[l x] w1].
Qed.

Lemma elem_of_cleanup_events (e : Event) (fp : option string) (m : gmap string Node) :
  e ∈ cleanup_events fp m →
  e = EvCleanup fp ∨ ∃ p, fp = Some p ∧ (e = EvExists p ∨ e = EvRemove p).
Proof.
  unfold cleanup_events. destruct fp as [p|].
  - destruct (Py.truthy p); [case_bool_decide|];
      rewrite ?elem_of_cons, ?elem_of_nil; naive_solver.
  - rewrite list_elem_of_singleton. naive_solver.
Qed.

Lemma cleanup_events_head (fp : option string) (m : gmap string Node) :
  EvCleanup fp ∈ cleanup_events fp m.
Proof. unfold cleanup_events. apply elem_of_cons. by left. Qed.

(** The [finally] block on an upload that reserved its two paths. *)
Lemma upload_finally_reserved (up cp : string) (proc : option Z) (w1 : World) :
  up ≠ cp → Py.truthy up = true → Py.truthy cp = true →
  let released := match proc with Some rc => bool_decide (rc ≠ 0) | None => true end in
  let w' := upload_finally (mkLocals (Some up) (Some cp) proc) w1 in
  ∃ evs, log w' = log w1 ++ evs
    ∧ (∀ e, e ∈ evs → (∀ p, e ≠ EvSave p) ∧ (∀ c, e ≠ EvRun c))
    ∧ EvCleanup (Some up) ∈ evs
    ∧ is_file (fs w') up = false
    ∧ (fs w1 !! up ≠ Some Dir → fs w' !! up = None)
    ∧ (if released
       then EvCleanup (Some cp) ∈ evs ∧ is_file (fs w') cp = false
            ∧ (fs w1 !! cp ≠ Some Dir → fs w' !! cp = None)
       else (EvCleanup (Some cp) ∉ evs) ∧ fs w' !! cp = fs w1 !! cp).
Proof.
  intros Hne Hup Hcp released w'.
  assert (Some up ≠ Some cp) as Hne1 by congruence.
  assert (Some cp ≠ Some up) as Hne2 by congruence.
  pose proof (cleanup_file_released up w1 Hup) as [Hf1 Hn1].
  pose proof (cleanup_file_released cp (cleanup_file (Some up) w1) Hcp) as [Hf2 Hn2].
  destruct released eqn:Hrel.
  - assert (w' = cleanup_file (Some cp) (cleanup_file (Some up) w1)) as ->.
    { subst w' released. unfold upload_finally. cbn [process upload_path converted_path].
      destruct proc as [rc|]; [|done]. apply bool_decide_eq_true in Hrel.
      by rewrite decide_True. }
    exists (cleanup_events (Some up) (fs w1)
            ++ cleanup_events (Some cp) (fs (cleanup_file (Some up) w1))).
    rewrite !cleanup_file_log, <- app_assoc.
    split; [done|]. split; [|split; [|split; [|split; [|split; [|split]]]]].
    + intros e He. apply elem_of_app in He as [He|He];
        apply elem_of_cleanup_events in He; naive_solver.
    + apply elem_of_app. left. apply cleanup_events_head.
    + unfold is_file in *. by rewrite cleanup_file_other.
    + intros Hd. rewrite cleanup_file_other by done. by apply Hn1.
    + apply elem_of_app. right. apply cleanup_events_head.
    + done.
    + intros Hd. apply Hn2. by rewrite cleanup_file_other.
  - assert (w' = cleanup_file (Some up) w1) as ->.
    { subst w' released. unfold upload_finally. cbn [process upload_path converted_path].
      destruct proc as [rc|]; [|done]. apply bool_decide_eq_false in Hrel.
      by rewrite decide_False. }
    exists (cleanup_events (Some up) (fs w1)).
    rewrite cleanup_file_log.
    split; [done|]. split; [|split; [|split; [|split; [|split]]]].
    + intros e He. apply elem_of_cleanup_events in He. naive_solver.
    + apply cleanup_events_head.
    + done.
    + done.
    + intros He. apply elem_of_cleanup_events in He. naive_solver.
    + by apply cleanup_file_other.
Qed.

End UploadRuns.

Section UploadOutcome.

(** An upload that passes validation: what it logs, what it answers and
    what it leaves at its two reserved paths. *)
Lemma upload_file_converting (req : UploadRequest) (env : Env) (w w0 : World)
    (file : FileStorage) :
  create_temp_dirs w = (Ok tt, w0) →
  Spec.validate req = Ok file →
  let up := upload_path_of file env in
  let cp := converted_path_of env in
  let cmd := command_of req file env in
  let saved := <[up := File (stream file)]> (fs w0) in
  ∃ resp w' evs,
    upload_file req env w = (Ok resp, w')
    ∧ log w' = log w0 ++ EvSave up :: evs
    ∧ (∀ p, EvSave p ∉ evs)
    ∧ EvCleanup (Some up) ∈ evs
    ∧ is_file (fs w') up = false
    ∧ (fs w0 !! up ≠ Some Dir → fs w' !! up = None)
    ∧ ((resp = mkResponse 200 (JsonFilename (converted_filename_of env))
        ∧ (EvCleanup (Some cp) ∉ evs)
        ∧ fs w0 !! up ≠ Some Dir
        ∧ ∃ written, ffmpeg env cmd saved = Exited 0 written
                     ∧ fs w' !! cp = encoder_write cp written saved !! cp)
       ∨ (status resp = 500
          ∧ EvCleanup (Some cp) ∈ evs
          ∧ is_file (fs w') cp = false
          ∧ (fs w0 !! up = Some Dir
             ∨ (∃ e, ffmpeg env cmd saved = NotStarted e)
             ∨ (∃ rc written, rc ≠ 0 ∧ ffmpeg env cmd saved = Exited rc written)))).
Proof.
  intros Hd Hv up cp cmd saved.
  rewrite (upload_file_entered req env w w0 Hd).
  pose proof (upload_try_stages req env w0) as Hs. rewrite Hv in Hs.
  fold up cp cmd saved in Hs. destruct Hs as [_ Hs].
  assert (up ≠ cp) as Hne by apply paths_distinct.
  assert (cp ≠ up) as Hne' by done.
  pose proof (upload_path_truthy file env) as Tup.
  pose proof (converted_path_truthy env) as Tcp. fold up in Tup. fold cp in Tcp.
  destruct (decide (fs w0 !! up = Some Dir)) as [Hdir|Hdir].
  - (* the input path is a directory: [file.save] raises *)
    rewrite Hs. cbn [fst snd].
    destruct (upload_finally_reserved up cp None
                (mkWorld (fs w0) (log w0 ++ [EvSave up])) Hne Tup Tcp)
      as (evs & Hlog & Hnone & Hc1 & Hf1 & Hn1 & Hc2 & Hf2 & Hn2).
    cbn [fs log] in *.
    eexists _, _, evs. split; [done|]. rewrite Hlog, <- app_assoc.
    split; [done|]. split; [intros p Hp; destruct (Hnone _ Hp) as [Hx _]; by apply (Hx p)|].
    split; [done|]. split; [done|]. split; [done|].
    right. split; [done|]. split; [done|]. split; [done|]. by left.
  - change (<[up:=File (stream file)]> (fs w0)) with saved in Hs.
    destruct (ffmpeg env cmd saved) as [rc written|e] eqn:Hrun; cbv beta iota in Hs.
    + destruct (decide (rc = 0)) as [->|Hrc]; cbv beta iota in Hs.
      * (* the encoder exits with status 0 *)
        rewrite Hs. cbn [fst snd].
        destruct (upload_finally_reserved up cp (Some 0)
                    (mkWorld (encoder_write cp written saved)
                       (log w0 ++ [EvSave up; EvRun cmd])) Hne Tup Tcp)
          as (evs & Hlog & Hnone & Hc1 & Hf1 & Hn1 & Hc2 & Hk).
        cbn [fs log] in *.
        eexists _, _, (EvRun cmd :: evs). split; [done|].
        rewrite Hlog, <- app_assoc.
        split; [done|]. split.
        { intros p Hp. apply elem_of_cons in Hp as [Hp|Hp]; [done|].
          destruct (Hnone _ Hp) as [Hx _]. by apply (Hx p). }
        split; [by apply elem_of_cons; right|]. split; [done|].
        split.
        { intros _. apply Hn1. unfold encoder_write, saved.
          destruct written as [data|]; [|by rewrite lookup_insert_eq].
          rewrite (lookup_insert_ne _ up cp) by done.
          destruct (fs w0 !! cp) as [[|d]|];
            rewrite ?lookup_insert_ne by done; by rewrite lookup_insert_eq. }
        left. split; [done|]. split.
        { intros Hin. apply elem_of_cons in Hin as [Hin|Hin]; [done|]. done. }
        split; [done|]. by exists written.
      * (* the encoder exits with another status *)
        rewrite Hs. cbn [fst snd].
        destruct (upload_finally_reserved up cp None
                    (mkWorld (encoder_write cp written saved)
                       (log w0 ++ [EvSave up; EvRun cmd])) Hne Tup Tcp)
          as (evs & Hlog & Hnone & Hc1 & Hf1 & Hn1 & Hc2 & Hf2 & Hn2).
        cbn [fs log] in *.
        eexists _, _, (EvRun cmd :: evs). split; [done|].
        rewrite Hlog, <- app_assoc.
        split; [done|]. split.
        { intros p Hp. apply elem_of_cons in Hp as [Hp|Hp]; [done|].
          destruct (Hnone _ Hp) as [Hx _]. by apply (Hx p). }
        split; [by apply elem_of_cons; right|]. split; [done|].
        split.
        { intros _. apply Hn1. unfold encoder_write, saved.
          destruct written as [data|]; [|by rewrite lookup_insert_eq].
          rewrite (lookup_insert_ne _ up cp) by done.
          destruct (fs w0 !! cp) as [[|d]|];
            rewrite ?lookup_insert_ne by done; by rewrite lookup_insert_eq. }
        right. split; [done|]. split; [by apply elem_of_cons; right|].
        split; [done|]. right. right. by exists rc, written.
    + (* the encoder cannot be started *)
      rewrite Hs. cbn [fst snd].
      destruct (upload_finally_reserved up cp None
                  (mkWorld saved (log w0 ++ [EvSave up; EvRun cmd])) Hne Tup Tcp)
        as (evs & Hlog & Hnone & Hc1 & Hf1 & Hn1 & Hc2 & Hf2 & Hn2).
      cbn [fs log] in *.
      eexists _, _, (EvRun cmd :: evs). split; [done|].
      rewrite Hlog, <- app_assoc.
      split; [done|]. split.
      { intros p Hp. apply elem_of_cons in Hp as [Hp|Hp]; [done|].
        destruct (Hnone _ Hp) as [Hx _]. by apply (Hx p). }
      split; [by apply elem_of_cons; right|]. split; [done|].
      split; [intros _; apply Hn1; unfold saved; by rewrite lookup_insert_eq|].
      right. split; [done|]. split; [by apply elem_of_cons; right|].
      split; [done|]. right. left. by exists e.
Qed.

(** An upload that does not get as far as reserving its paths: one of the
    checks fails, or reading [request.files] raises and the last [except]
    clause answers. *)
Lemma upload_file_rejected (req : UploadRequest) (env : Env) (w w0 : World)
    (e : Spec.ValidationError) :
  create_temp_dirs w = (Ok tt, w0) →
  Spec.validate req = Raise e →
  upload_file req env w =
    (Ok match request_files req with
        | Raise _ => mkResponse 500 (JsonError InternalServerError)
        | Ok _ => Spec.rejection e
        end,
     mkWorld (fs w0) (log w0 ++ [EvCleanup None; EvCleanup None])).
Proof.
  intros Hd Hv. rewrite (upload_file_entered req env w w0 Hd).
  pose proof (upload_try_stages req env w0) as Hs. rewrite Hv in Hs.
  rewrite Hs. cbn [fst snd]. f_equal.
  - destruct (request_files_cases req) as [[-> _]|[-> _]]; done.
  - unfold upload_finally. cbn [process upload_path converted_path].
    rewrite !cleanup_file_none. cbn [fs log]. by rewrite <- app_assoc.
Qed.

(** The body declares more than the configured maximum. *)
Lemma upload_file_too_large (req : UploadRequest) (env : Env) (w w0 : World) (n : Z) :
  create_temp_dirs w = (Ok tt, w0) →
  content_length req = Some n → n > MAX_CONTENT_LENGTH →
  upload_file req env w =
    (Ok (mkResponse 500 (JsonError InternalServerError)),
     mkWorld (fs w0) (log w0 ++ [EvCleanup None; EvCleanup None])).
Proof.
  intros Hd Hn Hbig.
  pose proof (request_files_too_large req n Hn Hbig) as Hf.
  destruct (Spec.validate req) as [file|e] eqn:Hv.
  { by apply (too_large_not_validated req _ file) in Hf. }
  rewrite (upload_file_rejected req env w w0 e Hd Hv). by rewrite Hf.
Qed.

(** The body is within the maximum and one of the checks fails. *)
Lemma upload_file_refused (req : UploadRequest) (env : Env) (w w0 : World)
    (e : Spec.ValidationError) :
  create_temp_dirs w = (Ok tt, w0) →
  (∀ n, content_length req = Some n → n ≤ MAX_CONTENT_LENGTH) →
  Spec.validate req = Raise e →
  upload_file req env w =
    (Ok (Spec.rejection e),
     mkWorld (fs w0) (log w0 ++ [EvCleanup None; EvCleanup None]))
  ∧ status (Spec.rejection e) = 400.
Proof.
  intros Hd Hn Hv.
  rewrite (upload_file_rejected req env w w0 e Hd Hv).
  rewrite (request_files_within req Hn). split; [done|].
  destruct e; try done. exfalso.
  unfold Spec.validate in Hv. destruct (videoFile req) as [f|]; [|done].
  destruct (String.eqb (filename f) ""); [done|].
  destruct (Spec.extension (filename f)); [|done].
  destruct (negb _); [done|].
  destruct (content_length req) as [n|]; [|done]. specialize (Hn n eq_refl).
  destruct (Z.ltb_spec MAX_CONTENT_LENGTH n); [lia|done].
Qed.

End UploadOutcome.

(** ** The download handler, case by case *)

Section Download.

Lemma download_file_cases (name : string) (w : World) :
  if decide (Werkzeug.secure_filename name = name) then
    let path := "converted/" +:+ name in
    plain_name name ∧
    match fs w !! path with
    | None =>
        download_file name w =
          (mkResponse 404 (Text "File not found."),
           mkWorld (fs w) (log w ++ [EvExists path]))
    | Some Dir =>
        download_file name w =
          (mkResponse 404 (Text "File not found."),
           mkWorld (fs w) (log w ++ [EvExists path; EvIsfile path]))
    | Some (File data) =>
        download_file name w =
          (mkResponse 200 (SentFile name data true),
           mkWorld (delete path (fs w))
             (log w ++ [EvExists path; EvIsfile path; EvSend path;
                        EvCleanup (Some path); EvExists path; EvRemove path]))
    end
  else
    download_file name w = (mkResponse 400 (Text "Invalid filename"), w).
Proof.
  unfold download_file. case_decide as Hfix.
  - rewrite decide_False by (intros H; by apply H).
    pose proof (secure_fixed_plain name Hfix) as Hplain.
    rewrite Hfix, (converted_path_plain name Hplain).
    cbv zeta. split; [done|].
    unfold os_path_exists, os_path_isfile, send_from_directory, cleanup_file,
      os_path_exists, os_remove, emit, is_file.
    rewrite (converted_path_plain name Hplain). cbn [fs log].
    destruct (fs w !! ("converted/" +:+ name)) as [[|data]|] eqn:Hl.
    + rewrite bool_decide_eq_true_2 by done. cbn [fs log negb orb].
      by rewrite <- app_assoc.
    + repeat (rewrite ?Hl; rewrite ?bool_decide_eq_true_2 by done;
              cbn [negb orb fs log Py.truthy String.append]).
      by rewrite <- !app_assoc.
    + rewrite bool_decide_eq_false_2 by (by intros [? ?]). done.
  - by rewrite decide_True.
Qed.

Lemma download_file_status (name : string) (w : World) :
  status (download_file name w).1 ∈ [200; 400; 404].
Proof.
  pose proof (download_file_cases name w) as H. case_decide.
  - destruct H as [_ H]. destruct (fs w !! _) as [[|data]|]; rewrite H; simpl;
      set_solver.
  - rewrite H. simpl. set_solver.
Qed.

End Download.


(** ** The rate limiter *)

Section Limiter.
Variables limit window : Z.

Abbreviation fresh now := (λ ts : Z, now - ts < window).

Lemma rate_check_window (ip : string) (now : Z) (store : gmap string (list Z)) :
  (rate_check limit window ip now store).2 !!! ip =
    if (rate_check limit window ip now store).1
    then filter (fresh now) (store !!! ip) ++ [now]
    else filter (fresh now) (store !!! ip).
Proof.
  unfold rate_check. case_decide; simpl.
  - by rewrite lookup_total_insert_eq.
  - by rewrite lookup_total_insert_eq.
Qed.

Lemma rate_check_decision (ip : string) (now : Z) (store : gmap string (list Z)) :
  (rate_check limit window ip now store).1 = true ↔
    Z.of_nat (length (filter (fresh now) (store !!! ip))) < limit.
Proof. unfold rate_check. case_decide; simpl; split; intros; try done; lia. Qed.

Lemma rate_check_other (ip c : string) (now : Z) (store : gmap string (list Z)) :
  ip ≠ c →
  (rate_check limit window ip now store).2 !!! c = store !!! c.
Proof.
  intros Hne. unfold rate_check. case_decide; simpl.
  - by rewrite lookup_total_insert_ne.
  - by rewrite !lookup_total_insert_ne.
Qed.

Lemma fresh_later (t t' : Z) (l : list Z) :
  t ≤ t' → filter (fresh t') (filter (fresh t) l) = filter (fresh t') l.
Proof.
  intros Hle. rewrite list_filter_filter.
  apply list_filter_iff. intros x. lia.
Qed.

Lemma filter_length_eq {A : Type} (P : A → Prop) `{!∀ x, Decision (P x)} (l : list A) :
  length (filter P l) = length l → filter P l = l.
Proof.
  induction l as [|x l IH]; [done|].
  rewrite filter_cons. case_decide; simpl; intros Hlen.
  - f_equal. apply IH. lia.
  - pose proof (length_filter P l). lia.
Qed.

(** Every window the limiter stores has at most [limit] entries. *)
Lemma reachable_bounded (store : gmap string (list Z)) :
  reachable limit window store →
  ∀ c, Z.of_nat (length (store !!! c)) ≤ Z.max limit 0.
Proof.
  induction 1 as [|store ip now _ IH]; intros c.
  - rewrite lookup_total_empty. simpl. lia.
  - destruct (decide (ip = c)) as [->|Hne].
    + rewrite rate_check_window.
      pose proof (rate_check_decision c now store) as Hd.
      pose proof (length_filter (fresh now) (store !!! c)) as Hlen.
      specialize (IH c).
      destruct (rate_check limit window c now store).1.
      * rewrite length_app. simpl. destruct Hd as [Hd _].
        specialize (Hd eq_refl). lia.
      * lia.
    + rewrite rate_check_other by done. apply IH.
Qed.

Lemma alike_step (T now : Z) (ip : string) (s1 s2 : gmap string (list Z)) :
  alike window T s1 s2 → T ≤ now →
  (rate_check limit window ip now s1).1 = (rate_check limit window ip now s2).1
  ∧ alike window now (rate_check limit window ip now s1).2 (rate_check limit window ip now s2).2.
Proof.
  intros Ha Hle.
  assert ((rate_check limit window ip now s1).1 = (rate_check limit window ip now s2).1) as Hd.
  { unfold rate_check. rewrite (Ha ip now Hle). by case_decide. }
  split; [done|]. intros c t Ht.
  destruct (decide (ip = c)) as [->|Hne].
  - rewrite !rate_check_window, <- Hd, (Ha c now Hle). done.
  - rewrite !rate_check_other by done. apply Ha. lia.
Qed.

Lemma alike_run (calls : list (string * Z)) (T : Z) (s1 s2 : gmap string (list Z)) :
  alike window T s1 s2 →
  Sorted Z.le (T :: calls.*2) →
  (run limit window calls s1).1 = (run limit window calls s2).1.
Proof.
  revert T s1 s2. induction calls as [|[ip now] calls IH]; intros T s1 s2 Ha Hs; [done|].
  simpl in *. apply Sorted_inv in Hs as [Hs Hhd]. apply HdRel_inv in Hhd.
  destruct (alike_step T now ip s1 s2 Ha Hhd) as [Hd Ha'].
  destruct (rate_check limit window ip now s1) as [ok1 st1].
  destruct (rate_check limit window ip now s2) as [ok2 st2]. simpl in *. subst ok2.
  specialize (IH now st1 st2 Ha' Hs).
  destruct (run limit window calls st1), (run limit window calls st2).
  simpl in *. by subst.
Qed.

Lemma rejected_alike (ip : string) (now : Z) (store : gmap string (list Z)) :
  (rate_check limit window ip now store).1 = false →
  alike window now (rate_check limit window ip now store).2 store.
Proof.
  intros Hrej c t Ht. destruct (decide (ip = c)) as [->|Hne].
  - rewrite rate_check_window, Hrej. by apply fresh_later.
  - by rewrite rate_check_other.
Qed.

(** The sliding-window bound, with the history made explicit. *)
Lemma run_window_bound (c : string) (calls : list (string * Z)) :
  ∀ (T : Z) (store : gmap string (list Z)) (acc : list Z),
    (∀ t, T ≤ t → filter (fresh t) (store !!! c) = filter (fresh t) acc) →
    Sorted Z.le (T :: calls.*2) →
    (∀ a, (within a window acc ≤ Z.to_nat limit)%nat) →
    ∀ a, (within a window (acc ++ accepted c calls (run limit window calls store).1)
          ≤ Z.to_nat limit)%nat.
Proof.
  unfold within.
  induction calls as [|[ip now] calls IH]; intros T store acc Hagree Hs Hacc a.
  { simpl. rewrite app_nil_r. apply Hacc. }
  simpl in Hs. apply Sorted_inv in Hs as [Hs Hhd]. apply HdRel_inv in Hhd.
  simpl.
  pose proof (rate_check_window ip now store) as Hw.
  pose proof (rate_check_decision ip now store) as Hd.
  pose proof (rate_check_other ip c now store) as Ho.
  destruct (rate_check limit window ip now store) as [ok st1]. simpl in *.
  destruct (run limit window calls st1) as [oks st2] eqn:Hrun. simpl.
  destruct ok; simpl.
  - case_bool_decide as Hip; simpl.
    + subst ip.
      replace (acc ++ now :: accepted c calls oks)
        with ((acc ++ [now]) ++ accepted c calls oks) by by rewrite <- app_assoc.
      specialize (IH now st1 (acc ++ [now])). rewrite Hrun in IH. simpl in IH.
      apply IH; [| done |].
      * intros t Ht. rewrite Hw, !filter_app, fresh_later by done.
        f_equal. apply Hagree. lia.
      * intros b. rewrite filter_app, length_app.
        rewrite filter_cons, filter_nil. case_decide as Hin; simpl; [|specialize (Hacc b); lia].
        assert (length (filter (λ t : Z, (b ≤ t < b + window)%Z) acc)
                ≤ length (filter (fresh now) acc))%nat as Hsub.
        { apply sublist_length.
          rewrite <- (list_filter_filter_l (λ t : Z, (b ≤ t < b + window)%Z) (fresh now))
            by (intros; lia).
          apply sublist_filter. }
        rewrite <- (Hagree now Hhd) in Hsub.
        destruct Hd as [Hd _]. specialize (Hd eq_refl). lia.
    + specialize (IH now st1 acc). rewrite Hrun in IH. simpl in IH.
      apply IH; [| done | done].
      intros t Ht. rewrite Ho by done. apply Hagree. lia.
  - specialize (IH now st1 acc). rewrite Hrun in IH. simpl in IH.
    apply IH; [| done | done].
    intros t Ht. destruct (decide (ip = c)) as [->|Hne].
    + rewrite Hw, fresh_later by done. apply Hagree. lia.
    + rewrite Ho by done. apply Hagree. lia.
Qed.

End Limiter.

(** The limiter's step, with the pruning condition solved for the timestamp:
    a timestamp survives exactly when it is younger than [window]. *)
Lemma rate_check_step (limit window : Z) (ip : string) (now : Z)
    (store : gmap string (list Z)) :
  rate_check limit window ip now store =
    let kept := filter (λ ts, now - window < ts) (store !!! ip) in
    if decide (limit ≤ Z.of_nat (length kept))
    then (false, <[ip := kept]> store)
    else (true, <[ip := kept ++ [now]]> store).
Proof.
  unfold rate_check. simpl.
  rewrite (list_filter_iff (λ ts, now - ts < window) (λ ts, now - window < ts))
    by (intros; lia).
  repeat case_decide; try lia; [done|].
  by rewrite insert_insert_eq.
Qed.

(** C4 (as amended). The limiter's step discards the client's timestamps that are
    [window] or more old ([ts <= now - window]); if at least [limit] remain
    it rejects and records nothing, otherwise it appends [now] and accepts.
    Hence, with a clock that does not run backwards, a client has at most
    [limit] accepted requests in any interval [a <= t < a + window], and a
    rejected request changes no later decision. *)
Theorem sliding_window_limit (limit window : Z) (calls later : list (string * Z))
    (c ip : string) (a now : Z) (store : gmap string (list Z)) :
  Sorted Z.le calls.*2 →
  Sorted Z.le (now :: later.*2) →
  rate_check limit window ip now store =
    (let kept := filter (λ ts, ¬ ts ≤ now - window) (store !!! ip) in
     if decide (limit ≤ Z.of_nat (length kept))
     then (false, <[ip := kept]> store)
     else (true, <[ip := kept ++ [now]]> store))
  ∧ (within a window (accepted c calls (run limit window calls ∅).1) ≤ Z.to_nat limit)%nat
  ∧ ((rate_check limit window ip now store).1 = false →
     sublist ((rate_check limit window ip now store).2 !!! ip) (store !!! ip)
     ∧ (run limit window later (rate_check limit window ip now store).2).1
       = (run limit window later store).1).
Proof.
  intros Hcalls Hlater. split; [|split].
  - rewrite rate_check_step. simpl.
    rewrite (list_filter_iff (λ ts, now - window < ts) (λ ts, ¬ ts ≤ now - window));
      [done | intros; lia].
  - destruct calls as [|[ip0 t0] calls']; [unfold within; simpl; lia|].
    apply (run_window_bound limit window c ((ip0, t0) :: calls') t0 ∅ []).
    + intros t _. by rewrite lookup_total_empty.
    + simpl in *. constructor; [done|]. constructor. lia.
    + intros b. unfold within. simpl. lia.
  - intros Hrej. split.
    + rewrite rate_check_window, Hrej. apply sublist_filter.
    + apply (alike_run limit window later now); [|done].
      by apply rejected_alike.
Qed.

(** C9. From any store the limiter can reach, a call that rejects leaves
    every client's timestamp window as it was; with a positive limit the
    whole store is unchanged. *)
Theorem rejected_call_keeps_window (limit window : Z) (ip : string) (now : Z)
    (store : gmap string (list Z)) :
  reachable limit window store →
  (rate_check limit window ip now store).1 = false →
  (∀ c, (rate_check limit window ip now store).2 !!! c = store !!! c)
  ∧ (0 < limit → (rate_check limit window ip now store).2 = store).
Proof.
  intros Hreach Hrej.
  assert (filter (λ ts, now - ts < window) (store !!! ip) = store !!! ip) as Hkept.
  { apply filter_length_eq.
    pose proof (reachable_bounded limit window store Hreach ip) as Hb.
    pose proof (length_filter (λ ts, now - ts < window) (store !!! ip)) as Hle.
    pose proof (rate_check_decision limit window ip now store) as Hd.
    rewrite Hrej in Hd.
    assert (¬ Z.of_nat (length (filter (λ ts, now - ts < window) (store !!! ip))) < limit)
      as Hge by (intros Hlt; apply Hd in Hlt; done).
    lia. }
  split.
  - intros c. destruct (decide (ip = c)) as [->|Hne].
    + by rewrite rate_check_window, Hrej.
    + by apply rate_check_other.
  - intros Hpos. revert Hrej Hkept. unfold rate_check. case_decide as Hge; [|done].
    simpl. intros _ Hkept. rewrite Hkept in Hge |- *.
    rewrite lookup_total_alt in Hge |- *.
    destruct (store !! ip) as [l|] eqn:Hl; simpl in *; [|lia].
    by apply insert_id.
Qed.

(** ** The upload handler: cleanup on every exit *)

Section UploadClaims.

Lemma upload_path_not_folder (file : FileStorage) (env : Env) :
  UPLOAD_FOLDER ≠ upload_path_of file env ∧ CONVERTED_FOLDER ≠ upload_path_of file env.
Proof. rewrite upload_path_under. done. Qed.

Lemma converted_path_not_folder (env : Env) :
  UPLOAD_FOLDER ≠ converted_path_of env ∧ CONVERTED_FOLDER ≠ converted_path_of env.
Proof. rewrite converted_path_under. done. Qed.

Lemma validated_file (req : UploadRequest) (file : FileStorage) :
  Spec.validate req = Ok file → videoFile req = Some file.
Proof.
  unfold Spec.validate. destruct (videoFile req) as [f|]; [|done].
  destruct (String.eqb (filename f) ""); [done|].
  destruct (Spec.extension (filename f)); [|done].
  destruct (negb _); [done|].
  destruct (content_length req) as [n|]; [destruct (_ <? _); [done|]|];
    by intros [= ->].
Qed.

Lemma upload_try_reserves (req : UploadRequest) (env : Env) (w0 : World) :
  upload_path (upload_try req env w0).1.1 =
    match Spec.validate req with
    | Ok file => Some (upload_path_of file env)
    | Raise _ => None
    end.
Proof.
  pose proof (upload_try_stages req env w0) as Hs.
  destruct (Spec.validate req) as [file|e]; [|by rewrite Hs].
  cbv zeta in Hs. destruct Hs as [_ Hs].
  case_decide; [by rewrite Hs|].
  destruct (ffmpeg env _ _) as [rc wr|e]; rewrite Hs; [|done].
  by case_decide.
Qed.

Lemma upload_file_log (req : UploadRequest) (env : Env) (w w' : World)
    (res : Result Exn Response) :
  upload_file req env w = (res, w') → ∃ evs, log w' = log w ++ evs.
Proof.
  intros Hrun.
  destruct (create_temp_dirs w) as [[[]|e] w0] eqn:Hd.
  - destruct (create_temp_dirs_ok w w0 Hd) as [_ Hlog0].
    destruct (Spec.validate req) as [file|e] eqn:Hv.
    + destruct (upload_file_converting req env w w0 file Hd Hv)
        as (resp & w1 & evs & Hup & Hlog & _).
      rewrite Hup in Hrun. injection Hrun as <- <-.
      rewrite Hlog, Hlog0, <- app_assoc. by eexists.
    + rewrite (upload_file_rejected req env w w0 e Hd Hv) in Hrun.
      injection Hrun as <- <-. cbn [log].
      rewrite Hlog0, <- app_assoc. by eexists.
  - unfold upload_file in Hrun. rewrite Hd in Hrun. injection Hrun as <- <-.
    destruct (create_temp_dirs_raise w w0 e Hd) as (_ & evs & Hlog & _).
    by exists evs.
Qed.

(** C1. Whatever the outcome of an upload, once the handler has entered
    its [try] statement it calls [cleanup_file] on its [upload_path]
    variable; and if the request saved its input anywhere, that path has
    been handed to [cleanup_file] and holds no file when the handler
    returns (it is absent altogether unless it was a directory before). *)
Theorem upload_releases_input (req : UploadRequest) (env : Env) (w w' : World)
    (res : Result Exn Response) :
  upload_file req env w = (res, w') →
  ∃ evs, log w' = log w ++ evs
    ∧ (∀ resp, res = Ok resp →
         EvCleanup (upload_path (upload_try req env (create_temp_dirs w).2).1.1) ∈ evs)
    ∧ (∀ p, EvSave p ∈ evs →
         EvCleanup (Some p) ∈ evs
         ∧ is_file (fs w') p = false
         ∧ (fs w !! p ≠ Some Dir → fs w' !! p = None)).
Proof.
  intros Hrun.
  destruct (create_temp_dirs w) as [[[]|e] w0] eqn:Hd.
  - destruct (create_temp_dirs_ok w w0 Hd) as [Hfs0 Hlog0].
    cbn [snd]. rewrite upload_try_reserves.
    destruct (Spec.validate req) as [file|e] eqn:Hv.
    + destruct (upload_file_converting req env w w0 file Hd Hv)
        as (resp & w1 & evs & Hup & Hlog & Hnosave & Hcl & Hnf & Habs & _).
      rewrite Hup in Hrun. injection Hrun as <- <-.
      exists ([EvMakedirs UPLOAD_FOLDER; EvMakedirs CONVERTED_FOLDER]
              ++ EvSave (upload_path_of file env) :: evs).
      rewrite Hlog, Hlog0, <- app_assoc. split; [done|]. split.
      * intros _ _. apply elem_of_app. right. apply elem_of_cons. by right.
      * intros p Hp.
        assert (p = upload_path_of file env) as ->.
        { rewrite elem_of_app, !elem_of_cons, elem_of_nil in Hp.
          destruct Hp as [[?|[?|[]]]|[[= ->]|Hp]]; try done.
          by apply Hnosave in Hp. }
        split; [apply elem_of_app; right; apply elem_of_cons; by right|].
        split; [done|].
        intros Hdir. apply Habs. rewrite Hfs0.
        destruct (upload_path_not_folder file env) as [N1 N2].
        by rewrite !ensure_dir_other.
    + rewrite (upload_file_rejected req env w w0 e Hd Hv) in Hrun.
      injection Hrun as <- <-. cbn [fs log].
      exists [EvMakedirs UPLOAD_FOLDER; EvMakedirs CONVERTED_FOLDER;
              EvCleanup None; EvCleanup None].
      rewrite Hlog0, <- app_assoc. split; [done|]. split.
      * intros _ _. do 2 (apply elem_of_cons; right). apply elem_of_cons. by left.
      * intros p Hp. rewrite !elem_of_cons, elem_of_nil in Hp. naive_solver.
  - unfold upload_file in Hrun. rewrite Hd in Hrun. injection Hrun as <- <-.
    destruct (create_temp_dirs_raise w w0 e Hd) as (_ & evs & Hlog & Hmk).
    exists evs. split; [done|]. split; [done|].
    intros p Hp. apply Hmk in Hp as [q Hq]. done.
Qed.

(** C3. An upload that got as far as saving its input either answers 200,
    and then the encoder exited with status 0, the output path was not
    handed to [cleanup_file] and holds what the encoder left there; or it
    answers 500 (the input could not be saved, the encoder could not be
    started, or it exited with a non-zero status), and then the output path
    was handed to [cleanup_file] and holds no file. *)
Theorem failed_conversion_releases_output (req : UploadRequest) (env : Env)
    (w w' : World) (res : Result Exn Response) (file : FileStorage) :
  upload_file req env w = (res, w') →
  videoFile req = Some file →
  let up := upload_path_of file env in
  let cp := converted_path_of env in
  let cmd := command_of req file env in
  let saved := <[up := File (stream file)]>
                 (ensure_dir CONVERTED_FOLDER (ensure_dir UPLOAD_FOLDER (fs w))) in
  ∃ evs, log w' = log w ++ evs
    ∧ (EvSave up ∈ evs →
       ∃ resp, res = Ok resp
         ∧ ((resp = mkResponse 200 (JsonFilename (converted_filename_of env))
             ∧ (∃ written, ffmpeg env cmd saved = Exited 0 written
                           ∧ fs w' !! cp = encoder_write cp written saved !! cp)
             ∧ EvCleanup (Some cp) ∉ evs)
            ∨ (status resp = 500
               ∧ (fs w !! up = Some Dir
                  ∨ (∃ e, ffmpeg env cmd saved = NotStarted e)
                  ∨ (∃ rc written, rc ≠ 0 ∧ ffmpeg env cmd saved = Exited rc written))
               ∧ EvCleanup (Some cp) ∈ evs
               ∧ is_file (fs w') cp = false))).
Proof.
  intros Hrun Hfile up cp cmd saved.
  destruct (upload_file_log req env w w' res Hrun) as [evs Hlog].
  exists evs. split; [done|]. intros Hsaved.
  destruct (create_temp_dirs w) as [[[]|e] w0] eqn:Hd.
  - destruct (create_temp_dirs_ok w w0 Hd) as [Hfs0 Hlog0].
    destruct (Spec.validate req) as [file'|e] eqn:Hv.
    + pose proof (validated_file req file' Hv) as Hf'.
      rewrite Hfile in Hf'. injection Hf' as <-.
      destruct (upload_file_converting req env w w0 file Hd Hv)
        as (resp & w1 & evs1 & Hup & Hlog1 & Hnosave & Hcl & Hnf & Habs & Hcases).
      rewrite Hup in Hrun. injection Hrun as <- <-.
      rewrite Hlog1, Hlog0, <- app_assoc in Hlog.
      apply app_inv_head in Hlog. subst evs.
      fold up cp cmd in Hcases. rewrite Hfs0 in Hcases. fold saved in Hcases.
      assert (ensure_dir CONVERTED_FOLDER (ensure_dir UPLOAD_FOLDER (fs w)) !! up
              = fs w !! up) as Hsame.
      { destruct (upload_path_not_folder file env) as [N1 N2].
        by rewrite !ensure_dir_other. }
      rewrite Hsame in Hcases.
      exists resp. split; [done|].
      destruct Hcases as [(Hr & Hnc & _ & Hw)|(Hr & Hc & Hf & Hwhy)].
      * left. split; [done|]. split; [done|].
        intros Hin. rewrite elem_of_app, !elem_of_cons, elem_of_nil in Hin.
        destruct Hin as [[?|[?|[]]]|[?|Hin]]; done.
      * right. split; [done|]. split; [done|]. split; [apply elem_of_app; right; apply elem_of_cons; by right|done].
    + rewrite (upload_file_rejected req env w w0 e Hd Hv) in Hrun.
      injection Hrun as <- <-. cbn [fs log] in Hlog.
      rewrite Hlog0, <- app_assoc in Hlog. apply app_inv_head in Hlog. subst evs.
      rewrite ?elem_of_app, ?elem_of_cons, ?elem_of_nil in Hsaved.
      destruct Hsaved as [[H|[H|H]]|[H|[H|H]]]; first [discriminate H | destruct H].
  - unfold upload_file in Hrun. rewrite Hd in Hrun. injection Hrun as <- <-.
    destruct (create_temp_dirs_raise w w0 e Hd) as (_ & evs' & Hlog' & Hmk).
    rewrite Hlog' in Hlog. apply app_inv_head in Hlog. subst evs'.
    apply Hmk in Hsaved as [q Hq]. done.
Qed.

End UploadClaims.
(** ** Calls of the encoder *)

Section EncoderRuns.

Lemma runs_app (l1 l2 : list Event) : runs (l1 ++ l2) = runs l1 ++ runs l2.
Proof. apply omap_app. Qed.

Lemma runs_cleanup_events (fp : option string) (m : gmap string Node) :
  runs (cleanup_events fp m) = [].
Proof.
  unfold cleanup_events. destruct fp as [p|]; [|done].
  destruct (Py.truthy p); [|done]. by case_bool_decide.
Qed.

Lemma upload_finally_runs (l : Locals) (w1 : World) :
  runs (log (upload_finally l w1)) = runs (log w1).
Proof.
  unfold upload_finally.
  destruct (process l) as [rc|]; [case_decide|];
    rewrite !cleanup_file_log, !runs_app, !runs_cleanup_events;
    by rewrite ?app_nil_r.
Qed.

Lemma create_temp_dirs_runs (w : World) :
  runs (log (create_temp_dirs w).2) = runs (log w).
Proof.
  destruct (create_temp_dirs w) as [[[]|e] w0] eqn:Hd; cbn [snd].
  - destruct (create_temp_dirs_ok w w0 Hd) as [_ ->]. rewrite runs_app.
    by rewrite app_nil_r.
  - destruct (create_temp_dirs_raise w w0 e Hd) as (_ & evs & -> & Hmk).
    rewrite runs_app. replace (runs evs) with (@nil (list string)).
    { by rewrite app_nil_r. }
    clear Hd. induction evs as [|ev evs IH]; [done|].
    destruct (Hmk ev) as [p ->]; [apply list_elem_of_here|].
    cbn. apply IH. intros ev' Hin. apply Hmk. by apply list_elem_of_further.
Qed.

(** How often, and on what, an upload calls [subprocess.run]. *)
Lemma upload_file_runs (req : UploadRequest) (env : Env) (w : World) :
  runs (log (upload_file req env w).2) =
    runs (log w) ++
    match (create_temp_dirs w).1, Spec.validate req with
    | Ok _, Ok file =>
        if decide (fs w !! upload_path_of file env = Some Dir) then []
        else [command_of req file env]
    | _, _ => []
    end.
Proof.
  pose proof (create_temp_dirs_runs w) as Hr0.
  destruct (create_temp_dirs w) as [[[]|e] w0] eqn:Hd; cbn [fst snd] in *.
  - rewrite (upload_file_entered req env w w0 Hd). cbn [snd].
    rewrite upload_finally_runs, <- Hr0.
    pose proof (upload_try_stages req env w0) as Hs.
    destruct (create_temp_dirs_ok w w0 Hd) as [Hfs0 _].
    destruct (Spec.validate req) as [file|e].
    + cbv zeta in Hs. destruct Hs as [_ Hs].
      assert (fs w0 !! upload_path_of file env = fs w !! upload_path_of file env)
        as Hsame.
      { destruct (upload_path_not_folder file env) as [N1 N2].
        by rewrite Hfs0, !ensure_dir_other. }
      rewrite Hsame in Hs.
      destruct (decide (fs w !! upload_path_of file env = Some Dir)).
      * rewrite Hs. cbn [snd log]. rewrite runs_app. done.
      * destruct (ffmpeg env _ _) as [rc wr|e]; rewrite Hs; cbn [snd log];
          by rewrite runs_app.
    + rewrite Hs. cbn [snd]. by rewrite app_nil_r.
  - unfold upload_file. rewrite Hd. cbn [snd]. by rewrite Hr0, app_nil_r.
Qed.

End EncoderRuns.


(** ** Rejections and the file system *)

Section Rejections.

(** What an upload that entered the handler can answer. *)
Lemma upload_file_answer (req : UploadRequest) (env : Env) (w w0 : World) :
  create_temp_dirs w = (Ok tt, w0) →
  match Spec.validate req with
  | Raise e =>
      upload_file req env w =
        (Ok match request_files req with
            | Raise _ => mkResponse 500 (JsonError InternalServerError)
            | Ok _ => Spec.rejection e
            end,
         mkWorld (fs w0) (log w0 ++ [EvCleanup None; EvCleanup None]))
  | Ok _ =>
      ∃ resp, (upload_file req env w).1 = Ok resp
              ∧ (status resp = 200 ∨ status resp = 500)
  end.
Proof.
  intros Hd. destruct (Spec.validate req) as [file|e] eqn:Hv.
  - destruct (upload_file_converting req env w w0 file Hd Hv)
      as (resp & w1 & evs & Hup & _ & _ & _ & _ & _ & Hcases).
    exists resp. rewrite Hup. split; [done|].
    destruct Hcases as [(-> & _)|(-> & _)]; auto.
  - by apply upload_file_rejected.
Qed.

(** The check of line 123 never decides: 413 is not among the answers. *)
Lemma upload_file_never_413 (req : UploadRequest) (env : Env) (w : World)
    (resp : Response) :
  (upload_file req env w).1 = Ok resp → status resp ≠ 413.
Proof.
  destruct (create_temp_dirs w) as [[[]|e] w0] eqn:Hd.
  - pose proof (upload_file_answer req env w w0 Hd) as Ha.
    destruct (Spec.validate req) as [file|e] eqn:Hv.
    + destruct Ha as (resp' & -> & Hst). intros [= <-]. lia.
    + rewrite Ha. cbn [fst]. intros [= <-].
      destruct (request_files_cases req) as [[Hf Hn]|[-> _]]; [|done].
      destruct (upload_file_refused req env w w0 e Hd Hn Hv) as [_ Hst].
      rewrite Hf. lia.
  - unfold upload_file. by rewrite Hd.
Qed.

(** C8 (as amended). An upload rejected by the rate limiter (429) never
    enters the handler: the file system is neither read nor changed. An
    upload rejected by one of the checks on the file part (400: no file
    part, empty file name, extension not allowed) has run
    [create_temp_dirs] and nothing else on the file system: the two folders
    are created when they are missing, no file is saved or removed, and
    both calls of [cleanup_file] receive no path. A request within the
    length limit that fails one of these checks is answered 400 whenever
    the limiter lets it pass and the folders can be ensured. *)
Theorem rejected_upload_effects (req : UploadRequest) (now : Z) (env : Env)
    (app app' : App) (resp : Response) :
  serve (PostUpload req now env) app = (resp, app') →
  (status resp = 429 → world app' = world app)
  ∧ (status resp = 400 →
     fs (world app')
       = ensure_dir CONVERTED_FOLDER (ensure_dir UPLOAD_FOLDER (fs (world app)))
     ∧ log (world app')
       = log (world app) ++ [EvMakedirs UPLOAD_FOLDER; EvMakedirs CONVERTED_FOLDER;
                             EvCleanup None; EvCleanup None]
     ∧ (∀ p, is_file (fs (world app')) p = is_file (fs (world app)) p)
     ∧ (fs (world app) !! UPLOAD_FOLDER = Some Dir →
        fs (world app) !! CONVERTED_FOLDER = Some Dir →
        fs (world app') = fs (world app)))
  ∧ (∀ e, Spec.validate req = Raise e →
       (∀ n, content_length req = Some n → n ≤ MAX_CONTENT_LENGTH) →
       (create_temp_dirs (world app)).1 = Ok tt →
       status resp = 429 ∨ resp = Spec.rejection e ∧ status resp = 400).
Proof.
  unfold serve, rate_limit.
  destruct (rate_check _ _ _ _ _) as [[|] store].
  - destruct (upload_file req env (world app)) as [res w'] eqn:Hup.
    intros [= <- <-]. cbn [world].
    destruct (create_temp_dirs (world app)) as [[[]|e] w0] eqn:Hd.
    + pose proof (upload_file_answer req env (world app) w0 Hd) as Ha.
      destruct (create_temp_dirs_ok _ _ Hd) as [Hfs0 Hlog0].
      destruct (Spec.validate req) as [file|e] eqn:Hv.
      * destruct Ha as (resp & Hr & Hst). rewrite Hup in Hr. cbn [fst] in Hr.
        subst res. cbn [flask_response].
        split; [intros; lia|]. split; [intros; lia|]. by intros e.
      * rewrite Hup in Ha. injection Ha as -> ->. cbn [flask_response fs log].
        split; [|split].
        -- destruct (request_files_cases req) as [[Hf Hn]|[-> _]]; [|done].
           destruct (upload_file_refused req env (world app) w0 e Hd Hn Hv)
             as [_ Hst].
           rewrite Hf. lia.
        -- intros _. rewrite Hfs0, Hlog0, <- app_assoc.
           split; [done|]. split; [done|]. split.
           ++ intros p. by rewrite !ensure_dir_is_file.
           ++ intros H1 H2. unfold ensure_dir. by rewrite H1, H2.
        -- intros e' [= <-] Hn _. right.
           destruct (upload_file_refused req env (world app) w0 e Hd Hn Hv)
             as [_ Hst].
           by rewrite (request_files_within req Hn).
    + unfold upload_file in Hup. rewrite Hd in Hup. injection Hup as <- <-.
      cbn [flask_response status].
      split; [intros; lia|]. split; [intros; lia|]. by intros e' _ _.
  - intros [= <- <-]. cbn [world status]. split; [done|].
    split; [intros; lia|]. intros; by left.
Qed.

(** C5. The handler against the four checks taken in order. Flask parses
    the body at the first read of [request.files] (line 106), before any
    check: a request that declares more than [MAX_CONTENT_LENGTH] is
    answered 500 by the last [except] clause, whatever its file part, though
    the checks reject it with a client error; the check of line 123 never
    decides and 413 is never answered. A request within the limit is
    answered as the checks decide: the first failing one yields 400, and a
    request that passes them is never answered with a client error. The
    extension check accepts a name exactly when what follows its last dot
    is, lower-cased, one of the ten allowed extensions. *)
Theorem declared_oversize_answered_500 (req : UploadRequest) (env : Env)
    (w w0 : World) :
  create_temp_dirs w = (Ok tt, w0) →
  (∀ n, content_length req = Some n → n > MAX_CONTENT_LENGTH →
     (∃ e, Spec.validate req = Raise e ∧ 400 ≤ status (Spec.rejection e) < 500)
     ∧ upload_file req env w =
         (Ok (mkResponse 500 (JsonError InternalServerError)),
          mkWorld (fs w0) (log w0 ++ [EvCleanup None; EvCleanup None])))
  ∧ ((∀ n, content_length req = Some n → n ≤ MAX_CONTENT_LENGTH) →
     match Spec.validate req with
     | Raise e =>
         (upload_file req env w).1 = Ok (Spec.rejection e)
         ∧ status (Spec.rejection e) = 400
     | Ok _ =>
         ∃ resp, (upload_file req env w).1 = Ok resp
                 ∧ (status resp = 200 ∨ status resp = 500)
     end)
  ∧ (∀ resp, (upload_file req env w).1 = Ok resp → status resp ≠ 413)
  ∧ (∀ name, allowed_file name = true ↔
       ∃ stem ext, name = stem +:+ "." +:+ ext
                   ∧ Py.contains "." ext = false
                   ∧ Py.lower ext ∈ ALLOWED_EXTENSIONS)
  ∧ allowed_file "movie.MP4" = true
  ∧ allowed_file "movie.exe" = false
  ∧ allowed_file "movie" = false.
Proof.
  intros Hd. split; [|split; [|split; [|split; [|done]]]].
  - intros n Hn Hbig. split.
    + pose proof (request_files_too_large req n Hn Hbig) as Hf.
      destruct (Spec.validate req) as [file|e] eqn:Hv.
      { by apply (too_large_not_validated req _ file) in Hf. }
      exists e. split; [done|]. destruct e; simpl; lia.
    + by apply (upload_file_too_large req env w w0 n).
  - intros Hn. pose proof (upload_file_answer req env w w0 Hd) as Ha.
    destruct (Spec.validate req) as [file|e] eqn:Hv; [done|].
    destruct (upload_file_refused req env w w0 e Hd Hn Hv) as [-> Hst]. done.
  - apply upload_file_never_413.
  - apply allowed_file_declarative.
Qed.

End Rejections.

(** ** Downloads *)

Section DownloadClaims.

(** The name a successful upload answers with is a minted one. *)
Lemma upload_answer_minted (req : UploadRequest) (env : Env) (w w1 : World)
    (name : string) :
  upload_file req env w = (Ok (mkResponse 200 (JsonFilename name)), w1) →
  name = uuid_str (uuid4 env) +:+ ".mp4".
Proof.
  intros Hup. destruct (create_temp_dirs w) as [[[]|e] w0] eqn:Hd.
  - destruct (Spec.validate req) as [file|e] eqn:Hv.
    + destruct (upload_file_converting req env w w0 file Hd Hv)
        as (resp & w' & evs & Hrun & _ & _ & _ & _ & _ & Hcases).
      rewrite Hrun in Hup. injection Hup as -> _.
      destruct Hcases as [(Hr & _)|(Hr & _)]; [by injection Hr as ->|done].
    + rewrite (upload_file_rejected req env w w0 e Hd Hv) in Hup.
      injection Hup as Hr _. by destruct (request_files req), e.
  - unfold upload_file in Hup. by rewrite Hd in Hup.
Qed.

(** End to end: the file a successful upload left behind is served to the
    first request for the answered name, and to no later one. *)
Lemma upload_then_download (req : UploadRequest) (env : Env) (w w1 : World)
    (name data : string) :
  upload_file req env w = (Ok (mkResponse 200 (JsonFilename name)), w1) →
  fs w1 !! Py.os_path_join CONVERTED_FOLDER name = Some (File data) →
  ∃ w2 w3,
    download_file name w1 = (mkResponse 200 (SentFile name data true), w2)
    ∧ download_file name w2 = (mkResponse 404 (Text "File not found."), w3).
Proof.
  intros Hup Hfile. apply upload_answer_minted in Hup. subst name.
  pose proof (minted_name_secure (uuid4 env)) as Hsec.
  pose proof (secure_fixed_plain _ Hsec) as Hplain.
  rewrite (converted_path_plain _ Hplain) in Hfile.
  pose proof (download_file_cases (uuid_str (uuid4 env) +:+ ".mp4") w1) as H1.
  rewrite decide_True in H1 by done. destruct H1 as [_ H1].
  cbv zeta in H1. rewrite Hfile in H1.
  eexists _, _. split; [exact H1|].
  match goal with
  | |- download_file ?n ?w' = _ => pose proof (download_file_cases n w') as H2
  end.
  rewrite decide_True in H2 by done. destruct H2 as [_ H2].
  cbv zeta in H2. cbn [fs log] in H2. rewrite lookup_delete_eq in H2. exact H2.
Qed.

(** C2. A minted name whose converted file exists is served once: the
    first request answers 200 with the file's bytes and removes the file,
    the next request for the same name answers 404. *)
Theorem download_once (n : N) (data : string) (w : World) :
  let name := uuid_str n +:+ ".mp4" in
  let path := Py.os_path_join CONVERTED_FOLDER name in
  fs w !! path = Some (File data) →
  ∃ w1 w2,
    download_file name w = (mkResponse 200 (SentFile name data true), w1)
    ∧ fs w1 = delete path (fs w)
    ∧ download_file name w1 = (mkResponse 404 (Text "File not found."), w2)
    ∧ fs w2 = fs w1.
Proof.
  intros name path Hfile.
  pose proof (minted_name_secure n) as Hsec. fold name in Hsec.
  pose proof (secure_fixed_plain name Hsec) as Hplain.
  assert (path = "converted/" +:+ name) as Hpath by by apply converted_path_plain.
  rewrite Hpath in *.
  pose proof (download_file_cases name w) as H1.
  rewrite decide_True in H1 by done. destruct H1 as [_ H1].
  cbv zeta in H1. rewrite Hfile in H1.
  eexists _, _. split; [exact H1|]. cbn [fs]. split; [done|].
  pose proof (download_file_cases name
                (mkWorld (delete ("converted/" +:+ name) (fs w))
                   (log w ++ [EvExists ("converted/" +:+ name);
                              EvIsfile ("converted/" +:+ name);
                              EvSend ("converted/" +:+ name);
                              EvCleanup (Some ("converted/" +:+ name));
                              EvExists ("converted/" +:+ name);
                              EvRemove ("converted/" +:+ name)]))) as H2.
  rewrite decide_True in H2 by done. destruct H2 as [_ H2].
  cbv zeta in H2. cbn [fs log] in H2. rewrite lookup_delete_eq in H2.
  split; [exact H2|done].
Qed.

(** C6. The download handler sanitises the requested name as uploads are
    sanitised and answers 400, without touching the file system, whenever
    that changes the name; this is the case for every name that is not a
    plain name (one with a separator, a leading dot or a character outside
    [A-Za-z0-9_.-]), such as [../secret] or [..%2Fsecret]. The only path the
    handler ever touches is the requested plain name inside the converted
    folder. *)
Theorem download_rejects_unsanitised (name : string) (w : World) :
  (Werkzeug.secure_filename name ≠ name →
   download_file name w = (mkResponse 400 (Text "Invalid filename"), w))
  ∧ (¬ plain_name name →
     download_file name w = (mkResponse 400 (Text "Invalid filename"), w))
  ∧ (∃ evs, log (download_file name w).2 = log w ++ evs
            ∧ ∀ e p, e ∈ evs → event_path e = Some p →
                     plain_name name ∧ p = CONVERTED_FOLDER +:+ "/" +:+ name)
  ∧ (∀ q, q ≠ CONVERTED_FOLDER +:+ "/" +:+ name →
          fs (download_file name w).2 !! q = fs w !! q)
  ∧ download_file "../secret" w = (mkResponse 400 (Text "Invalid filename"), w)
  ∧ download_file "..%2Fsecret" w = (mkResponse 400 (Text "Invalid filename"), w).
Proof.
  assert (∀ name', Werkzeug.secure_filename name' ≠ name' →
            download_file name' w = (mkResponse 400 (Text "Invalid filename"), w))
    as Hrej.
  { intros name' Hne. pose proof (download_file_cases name' w) as H.
    by rewrite decide_False in H. }
  split; [apply Hrej|]. split; [|split; [|split; [|split]]].
  - intros Hnp. apply Hrej. intros Hfix. by apply Hnp, secure_fixed_plain.
  - pose proof (download_file_cases name w) as H. case_decide as Hfix.
    + destruct H as [Hplain H]. cbv zeta in H.
      destruct (fs w !! _) as [[|data]|]; rewrite H; cbn [snd log];
        eexists; (split; [done|]); intros e p He Hp; (split; [done|]);
        rewrite ?elem_of_cons, ?elem_of_nil in He;
        repeat (destruct He as [->|He]; [by injection Hp as <- || done|]); done.
    + rewrite H. cbn [snd]. exists []. split; [by rewrite app_nil_r|].
      intros e p He. by apply elem_of_nil in He.
  - intros q Hq. pose proof (download_file_cases name w) as H. case_decide as Hfix.
    + destruct H as [_ H]. cbv zeta in H.
      destruct (fs w !! _) as [[|data]|]; rewrite H; cbn [snd fs]; [done| |done].
      by apply lookup_delete_ne.
    + by rewrite H.
  - by apply Hrej.
  - by apply Hrej.
Qed.

End DownloadClaims.

(** ** Conversion options *)

Section Options.

Lemma ffmpeg_command_options (up cp : string) (c r : option string) :
  ffmpeg_command up cp (Py.lower (default "medium" c)) (Py.lower (default "original" r))
  = Spec.command up cp (Spec.compression_level c) (Spec.target_resolution r).
Proof.
  assert ((if decide (Py.lower (default "medium" c) = "low") then ["-crf"; "18"]
           else if decide (Py.lower (default "medium" c) = "high") then ["-crf"; "28"]
           else ["-crf"; "23"])
          = ["-crf"; Spec.crf (Spec.compression_level c)]) as Hc.
  { unfold Spec.compression_level. destruct c as [v|]; [|done].
    change (default "medium" (Some v)) with v.
    destruct (String.eqb_spec (Py.lower v) "low") as [->|H1]; [done|].
    rewrite decide_False by done.
    destruct (String.eqb_spec (Py.lower v) "high") as [->|H2]; [done|].
    by rewrite decide_False. }
  assert ((if decide (Py.lower (default "original" r) = "1080p")
           then ["-vf"; "scale=-2:1080"]
           else if decide (Py.lower (default "original" r) = "720p")
           then ["-vf"; "scale=-2:720"]
           else if decide (Py.lower (default "original" r) = "480p")
           then ["-vf"; "scale=-2:480"]
           else [])
          = Spec.scale_filter (Spec.target_resolution r)) as Hr.
  { unfold Spec.target_resolution. destruct r as [v|]; [|done].
    change (default "original" (Some v)) with v.
    destruct (String.eqb_spec (Py.lower v) "480p") as [->|H1]; [done|].
    destruct (String.eqb_spec (Py.lower v) "720p") as [->|H2]; [done|].
    destruct (String.eqb_spec (Py.lower v) "1080p") as [->|H3]; [done|].
    by rewrite !decide_False. }
  unfold ffmpeg_command, Spec.command. by rewrite Hc, Hr.
Qed.

Lemma compression_level_field (c : Spec.CompressionLevel) :
  Spec.compression_level (Spec.compression_field c) = c.
Proof. by destruct c. Qed.

Lemma target_resolution_field (r : Spec.TargetResolution) :
  Spec.target_resolution (Spec.resolution_field r) = r.
Proof. by destruct r. Qed.

Lemma compression_level_default (c : option string) :
  Py.lower <$> c ∉ [Some "low"; Some "high"] → Spec.compression_level c = Spec.Medium.
Proof.
  intros Hc. unfold Spec.compression_level. destruct c as [v|]; [|done].
  cbn [fmap option_fmap option_map] in Hc.
  destruct (String.eqb_spec (Py.lower v) "low") as [E|_]; [rewrite E in Hc; set_solver|].
  destruct (String.eqb_spec (Py.lower v) "high") as [E|_]; [rewrite E in Hc; set_solver|].
  done.
Qed.

Lemma target_resolution_default (r : option string) :
  Py.lower <$> r ∉ [Some "480p"; Some "720p"; Some "1080p"] →
  Spec.target_resolution r = Spec.Original.
Proof.
  intros Hr. unfold Spec.target_resolution. destruct r as [v|]; [|done].
  cbn [fmap option_fmap option_map] in Hr.
  destruct (String.eqb_spec (Py.lower v) "480p") as [E|_]; [rewrite E in Hr; set_solver|].
  destruct (String.eqb_spec (Py.lower v) "720p") as [E|_]; [rewrite E in Hr; set_solver|].
  destruct (String.eqb_spec (Py.lower v) "1080p") as [E|_]; [rewrite E in Hr; set_solver|].
  done.
Qed.

(** The two [if] chains of lines 152-166, on the fields as the form holds
    them. *)
Lemma crf_of_field (c : option string) :
  Spec.crf (Spec.compression_level c) =
    if decide (Py.lower <$> c = Some "low") then "18"
    else if decide (Py.lower <$> c = Some "high") then "28"
    else "23".
Proof.
  unfold Spec.compression_level. destruct c as [v|]; [|done].
  cbn [fmap option_fmap option_map].
  destruct (String.eqb_spec (Py.lower v) "low") as [->|H1]; [done|].
  rewrite decide_False by congruence.
  destruct (String.eqb_spec (Py.lower v) "high") as [->|H2]; [done|].
  by rewrite decide_False by congruence.
Qed.

Lemma height_of_field (r : option string) :
  Spec.height (Spec.target_resolution r) =
    if decide (Py.lower <$> r = Some "1080p") then Some "1080"
    else if decide (Py.lower <$> r = Some "720p") then Some "720"
    else if decide (Py.lower <$> r = Some "480p") then Some "480"
    else None.
Proof.
  unfold Spec.target_resolution. destruct r as [v|]; [|done].
  cbn [fmap option_fmap option_map].
  destruct (String.eqb_spec (Py.lower v) "480p") as [->|H1]; [done|].
  destruct (String.eqb_spec (Py.lower v) "720p") as [->|H2]; [done|].
  destruct (String.eqb_spec (Py.lower v) "1080p") as [->|H3]; [done|].
  by rewrite !decide_False by congruence.
Qed.

(** The handler reads the two fields nowhere but in the command line. *)
Lemma upload_file_options (addr : string) (file : option FileStorage)
    (len : option Z) (c r : option string) (env : Env) (w : World) :
  upload_file (mkUpload addr file len c r) env w
  = upload_file (mkUpload addr file len
                   (Spec.compression_field (Spec.compression_level c))
                   (Spec.resolution_field (Spec.target_resolution r))) env w.
Proof.
  unfold upload_file. destruct (create_temp_dirs w) as [[[]|e] w0]; [|done].
  unfold upload_try, request_files.
  cbn [videoFile content_length form_compression form_resolution].
  destruct len as [n|]; [case_decide; [done|]|];
    (destruct file as [f|]; [|done]);
    rewrite !ffmpeg_command_options;
    by rewrite compression_level_field, target_resolution_field.
Qed.

(** C7. An upload that passes validation, and whose input can be saved,
    hands exactly one command line to [subprocess.run]: the fixed one for
    the compression level and target resolution its two form fields stand
    for ([-crf 18] for low, [28] for high and [23] otherwise;
    [-vf scale=-2:H] for 480p, 720p or 1080p and no filter otherwise, the
    fields being compared in lower case), from the saved input to the
    reserved output;
    and it answers 200 exactly when the encoder, called on that command
    line, exits with status 0. A field that is missing or not recognised
    stands for the default (medium, original), and the handler treats the
    request exactly as it treats one with the canonical spelling: nothing
    is rejected on account of these fields. *)
Theorem conversion_options_total (req : UploadRequest) (env : Env) (w w0 : World)
    (file : FileStorage) :
  create_temp_dirs w = (Ok tt, w0) →
  Spec.validate req = Ok file →
  fs w !! upload_path_of file env ≠ Some Dir →
  let level := Spec.compression_level (form_compression req) in
  let target := Spec.target_resolution (form_resolution req) in
  let cmd :=
    ["ffmpeg"; "-i"; upload_path_of file env; "-crf"; Spec.crf level]
    ++ match Spec.height target with
       | Some h => ["-vf"; "scale=-2:" +:+ h]
       | None => []
       end
    ++ ["-codec:v"; "libx264"; "-preset"; "medium"; "-codec:a"; "aac";
        "-b:a"; "128k"; "-movflags"; "+faststart"; "-y"; "-hide_banner";
        "-loglevel"; "error"; converted_path_of env] in
  let saved := <[upload_path_of file env := File (stream file)]> (fs w0) in
  runs (log (upload_file req env w).2) = runs (log w) ++ [cmd]
  ∧ ((upload_file req env w).1
       = Ok (mkResponse 200 (JsonFilename (converted_filename_of env)))
     ↔ ∃ written, ffmpeg env cmd saved = Exited 0 written)
  ∧ ((∀ written, ffmpeg env cmd saved ≠ Exited 0 written) →
     ∃ resp, (upload_file req env w).1 = Ok resp ∧ status resp = 500)
  ∧ Spec.crf level
    = (if decide (Py.lower <$> form_compression req = Some "low") then "18"
       else if decide (Py.lower <$> form_compression req = Some "high") then "28"
       else "23")
  ∧ Spec.height target
    = (if decide (Py.lower <$> form_resolution req = Some "1080p") then Some "1080"
       else if decide (Py.lower <$> form_resolution req = Some "720p") then Some "720"
       else if decide (Py.lower <$> form_resolution req = Some "480p") then Some "480"
       else None)
  ∧ Spec.crf level ∈ ["18"; "23"; "28"]
  ∧ Spec.height target ∈ [None; Some "480"; Some "720"; Some "1080"]
  ∧ (Py.lower <$> form_compression req ∉ [Some "low"; Some "high"] →
     level = Spec.Medium)
  ∧ (Py.lower <$> form_resolution req ∉ [Some "480p"; Some "720p"; Some "1080p"] →
     target = Spec.Original)
  ∧ upload_file req env w
    = upload_file (mkUpload (remote_addr req) (videoFile req) (content_length req)
                     (Spec.compression_field level)
                     (Spec.resolution_field target)) env w.
Proof.
  intros Hd Hv Hdir level target cmd saved.
  assert (command_of req file env = cmd) as Hcmd.
  { unfold command_of. by rewrite ffmpeg_command_options. }
  destruct (create_temp_dirs_ok w w0 Hd) as [Hfs0 _].
  assert (fs w0 !! upload_path_of file env ≠ Some Dir) as Hdir0.
  { destruct (upload_path_not_folder file env) as [N1 N2].
    by rewrite Hfs0, !ensure_dir_other. }
  destruct (upload_file_converting req env w w0 file Hd Hv)
    as (resp & w1 & evs & Hup & _ & _ & _ & _ & _ & Hcases).
  cbv zeta in Hcases. rewrite Hcmd in Hcases. fold saved in Hcases.
  split; [|split; [|split; [|split; [|split; [|split; [|split; [|split; [|split]]]]]]]].
  - rewrite upload_file_runs, Hd, Hv. cbn [fst].
    by rewrite decide_False, Hcmd.
  - rewrite Hup. cbn [fst]. split.
    + intros [= ->].
      destruct Hcases as [(_ & _ & _ & written & Hrun & _)|(Hst & _)]; [|done].
      by exists written.
    + intros [written Hrun].
      destruct Hcases as [(-> & _)|(_ & _ & _ & [?|[[e He]|(rc & wr & Hrc & Hx)]])];
        [done|done|congruence|].
      rewrite Hrun in Hx. by injection Hx as <- _.
  - intros Hnot. exists resp. rewrite Hup. split; [done|].
    destruct Hcases as [(_ & _ & _ & written & Hrun & _)|(Hst & _)]; [|done].
    by destruct (Hnot written).
  - apply crf_of_field.
  - apply height_of_field.
  - subst level. generalize (Spec.compression_level (form_compression req)).
    clear. intros []; set_solver.
  - subst target. generalize (Spec.target_resolution (form_resolution req)).
    clear. intros []; set_solver.
  - apply compression_level_default.
  - apply target_resolution_default.
  - destruct req as [addr f len c r]. apply upload_file_options.
Qed.

End Options.

(** ** Routes and the timestamp store *)

Section Routes.

Lemma index_status (w : World) : status (index w).1 ∈ [200; 404; 500].
Proof.
  unfold index. destruct (send_from_directory _ _ w) as [[data|[[]| | |]] w1];
    cbn [fst status]; set_solver.
Qed.

(** C10. Serving the index page or a download neither reads nor writes the
    timestamp store: the store is unchanged, the answer and the resulting
    file system are the same whatever the store holds, and the answer is
    never 429. *)
Theorem rate_limit_only_on_upload (name : string) (app : App)
    (store : gmap string (list Z)) :
  (request_timestamps (serve GetIndex app).2 = request_timestamps app
   ∧ status (serve GetIndex app).1 ≠ 429
   ∧ serve GetIndex (mkApp store (world app))
     = ((serve GetIndex app).1, mkApp store (world (serve GetIndex app).2)))
  ∧ (request_timestamps (serve (GetDownload name) app).2 = request_timestamps app
     ∧ status (serve (GetDownload name) app).1 ≠ 429
     ∧ serve (GetDownload name) (mkApp store (world app))
       = ((serve (GetDownload name) app).1,
          mkApp store (world (serve (GetDownload name) app).2))).
Proof.
  split.
  - pose proof (index_status (world app)) as Hs.
    unfold serve. cbn [world request_timestamps].
    destruct (index (world app)) as [resp w1]. cbn [fst snd world request_timestamps] in *.
    split; [done|]. split; [|done].
    rewrite !elem_of_cons, elem_of_nil in Hs. lia.
  - pose proof (download_file_status name (world app)) as Hs.
    unfold serve. cbn [world request_timestamps].
    destruct (download_file name (world app)) as [resp w1].
    cbn [fst snd world request_timestamps] in *.
    split; [done|]. split; [|done].
    rewrite !elem_of_cons, elem_of_nil in Hs. lia.
Qed.

End Routes.

Lemma sliding_window_limit_witness :
  Nat.le
    (within 1700000000 60
       (accepted "203.0.113.7" (burst_calls ++ [("203.0.113.7", 1700000059)])
          (run 5 60 (burst_calls ++ [("203.0.113.7", 1700000059)]) ∅).1))
    (Z.to_nat 5)
  ∧ (run 5 60 [("203.0.113.7", 1700000061)]
       (rate_check 5 60 "203.0.113.7" 1700000059 burst_store).2).1
    = (run 5 60 [("203.0.113.7", 1700000061)] burst_store).1.
Proof.
  assert (Sorted Z.le (burst_calls ++ [("203.0.113.7", 1700000059)]).*2) as H1.
  { cbv [burst_calls replicate app fmap list_fmap snd].
    repeat (apply Sorted_cons; [|first [apply HdRel_nil | apply HdRel_cons; lia]]).
    apply Sorted_nil. }
  assert (Sorted Z.le (1700000059 :: [("203.0.113.7", 1700000061)].*2)) as H2.
  { cbv [fmap list_fmap snd].
    repeat (apply Sorted_cons; [|first [apply HdRel_nil | apply HdRel_cons; lia]]).
    apply Sorted_nil. }
  destruct (sliding_window_limit 5 60 _ _ "203.0.113.7" "203.0.113.7"
              1700000000 1700000059 burst_store H1 H2) as (_ & Hbound & Hrej).
  split; [exact Hbound|].
  apply Hrej. vm_compute. reflexivity.
Defined.

(** Counterexample to C4 as it is worded, at the boundary: a timestamp exactly [window]
    old is not older than [now - window], yet the code discards it. After five
    requests at one instant, a request exactly 60 seconds later is accepted by
    the code and rejected by the worded step; the six requests lie in one
    60-second interval and all are accepted. *)
Lemma boundary_timestamp_counterexample :
  (rate_check 5 60 "203.0.113.7" 1700000060 burst_store).1 = true
  ∧ (Spec.rate_check 5 60 "203.0.113.7" 1700000060 burst_store).1 = false
  ∧ (run 5 60 (burst_calls ++ [("203.0.113.7", 1700000060)]) ∅).1
    = [true; true; true; true; true; true].
Proof. vm_compute. done. Qed.

Lemma rejected_call_keeps_window_witness :
  reachable 5 60 (foldr (λ t s, (rate_check 5 60 "203.0.113.7" t s).2) ∅ (replicate 5 1700000000))
  ∧ (∀ c, (rate_check 5 60 "203.0.113.7" 1700000059
             (foldr (λ t s, (rate_check 5 60 "203.0.113.7" t s).2) ∅ (replicate 5 1700000000))).2 !!! c
          = foldr (λ t s, (rate_check 5 60 "203.0.113.7" t s).2) ∅ (replicate 5 1700000000) !!! c).
Proof.
  assert (reachable 5 60
            (foldr (λ t s, (rate_check 5 60 "203.0.113.7" t s).2) ∅ (replicate 5 1700000000))) as Hr.
  { cbv [foldr replicate]. repeat apply reachable_step. apply reachable_empty. }
  split; [exact Hr|].
  apply (rejected_call_keeps_window 5 60 "203.0.113.7" 1700000059 _ Hr).
  vm_compute. reflexivity.
Defined.

(** ** The claims at sample inputs *)

Ltac in_list := repeat first [apply list_elem_of_here | apply list_elem_of_further].

Lemma pair_eta {A B : Type} (p : A * B) : p = (p.1, p.2).
Proof. by destruct p. Qed.

Lemma upload_releases_input_witness :
  EvCleanup (Some sample_input_path)
    ∈ log (upload_file sample_upload encoder_failing empty_world).2
  ∧ fs (upload_file sample_upload encoder_failing empty_world).2 !! sample_input_path
    = None.
Proof.
  destruct (upload_releases_input sample_upload encoder_failing empty_world _ _
              (pair_eta _)) as (evs & Hlog & _ & H).
  assert (EvSave sample_input_path ∈ evs) as Hsaved.
  { pose proof Hlog as Hl. vm_compute in Hl. subst evs. in_list. }
  destruct (H sample_input_path Hsaved) as (Hc & _ & Hn).
  split.
  - rewrite Hlog. apply elem_of_app. by right.
  - apply Hn. vm_compute. discriminate.
Defined.

Lemma failed_conversion_releases_output_witness :
  is_file (fs (upload_file sample_upload encoder_failing empty_world).2)
    sample_output_path = false
  ∧ fs (upload_file sample_upload encoder_ok empty_world).2 !! sample_output_path
    = Some (File "MP4-VIDEO").
Proof.
  split.
  - destruct (failed_conversion_releases_output sample_upload encoder_failing
                empty_world _ _ (mkFile "movie.MP4" "RAW-VIDEO") (pair_eta _) eq_refl)
      as (evs & Hlog & H).
    assert (EvSave sample_input_path ∈ evs) as Hsaved.
    { pose proof Hlog as Hl. vm_compute in Hl. subst evs. in_list. }
    destruct (H Hsaved) as (resp & Hres & [(Hr & _)|(_ & _ & _ & Hf)]).
    + exfalso. rewrite Hr in Hres. vm_compute in Hres. discriminate.
    + exact Hf.
  - destruct (failed_conversion_releases_output sample_upload encoder_ok
                empty_world _ _ (mkFile "movie.MP4" "RAW-VIDEO") (pair_eta _) eq_refl)
      as (evs & Hlog & H).
    assert (EvSave sample_input_path ∈ evs) as Hsaved.
    { pose proof Hlog as Hl. vm_compute in Hl. subst evs. in_list. }
    destruct (H Hsaved) as (resp & Hres & [(_ & (wr & Hrun & Hfs) & _)|(Hst & _)]).
    + assert (converted_path_of encoder_ok = sample_output_path) as E
        by (vm_compute; reflexivity).
      rewrite E in Hfs. rewrite Hfs. injection Hrun as <-. vm_compute. reflexivity.
    + exfalso. vm_compute in Hres. injection Hres as <-. vm_compute in Hst. discriminate.
Defined.

Lemma rejected_upload_effects_witness :
  world (serve (PostUpload sample_upload 1700000001 encoder_ok)
           (mkApp burst_store empty_world)).2 = empty_world
  ∧ log (world (serve (PostUpload (mkUpload "203.0.113.7" None None None None)
                         1700000000 encoder_ok) (mkApp ∅ empty_world)).2)
    = [EvMakedirs UPLOAD_FOLDER; EvMakedirs CONVERTED_FOLDER;
       EvCleanup None; EvCleanup None]
  ∧ (serve (PostUpload (mkUpload "203.0.113.7" (Some (mkFile "movie.exe" "MZ"))
                          (Some 2) None None)
              1700000000 encoder_ok) (mkApp ∅ empty_world)).1
    = mkResponse 400 (JsonError InvalidFileType).
Proof.
  split; [|split].
  - apply (proj1 (rejected_upload_effects sample_upload 1700000001 encoder_ok
                    (mkApp burst_store empty_world) _ _ (pair_eta _))).
    vm_compute. reflexivity.
  - destruct (rejected_upload_effects (mkUpload "203.0.113.7" None None None None)
                1700000000 encoder_ok (mkApp ∅ empty_world) _ _ (pair_eta _))
      as (_ & H & _).
    destruct H as (_ & Hlog & _); [vm_compute; reflexivity|]. exact Hlog.
  - destruct (rejected_upload_effects
                (mkUpload "203.0.113.7" (Some (mkFile "movie.exe" "MZ"))
                   (Some 2) None None)
                1700000000 encoder_ok (mkApp ∅ empty_world) _ _ (pair_eta _))
      as (_ & _ & H).
    destruct (H Spec.BadExtension) as [H429|[Hresp _]].
    + vm_compute. reflexivity.
    + intros n [= <-]. vm_compute. discriminate.
    + vm_compute. reflexivity.
    + exfalso. vm_compute in H429. discriminate H429.
    + exact Hresp.
Defined.

(** Counterexample to C8 as it is worded, for validation rejections: the handler calls
    [create_temp_dirs] before it validates, so a request without a file part,
    arriving when the folders are missing, is answered 400 after both folders
    have been created. *)
Lemma validation_rejection_creates_folders :
  let served := serve (PostUpload (mkUpload "203.0.113.7" None None None None)
                         1700000000 encoder_ok) (mkApp ∅ empty_world) in
  served.1 = mkResponse 400 (JsonError NoFilePart)
  ∧ fs empty_world !! UPLOAD_FOLDER = None
  ∧ fs (world served.2) !! UPLOAD_FOLDER = Some Dir
  ∧ fs (world served.2) !! CONVERTED_FOLDER = Some Dir
  ∧ fs (world served.2) ≠ fs empty_world.
Proof.
  cbv zeta. repeat split; try (vm_compute; reflexivity).
  intros Heq.
  assert (fs (world (serve (PostUpload (mkUpload "203.0.113.7" None None None None)
                              1700000000 encoder_ok) (mkApp ∅ empty_world)).2)
            !! UPLOAD_FOLDER = fs empty_world !! UPLOAD_FOLDER) as H by by rewrite Heq.
  vm_compute in H. discriminate H.
Qed.

Lemma declared_oversize_answered_500_witness :
  Spec.validate oversize_upload = Raise Spec.Oversize
  ∧ Spec.rejection Spec.Oversize = mkResponse 413 (JsonError FileTooLarge)
  ∧ (upload_file oversize_upload encoder_ok empty_world).1
    = Ok (mkResponse 500 (JsonError InternalServerError))
  ∧ Spec.validate oversize_wrong_type = Raise Spec.BadExtension
  ∧ Spec.rejection Spec.BadExtension = mkResponse 400 (JsonError InvalidFileType)
  ∧ (upload_file oversize_wrong_type encoder_ok empty_world).1
    = Ok (mkResponse 500 (JsonError InternalServerError)).
Proof.
  split; [vm_compute; reflexivity|]. split; [reflexivity|]. split; [|split; [|split]].
  - destruct (declared_oversize_answered_500 oversize_upload encoder_ok empty_world
                (create_temp_dirs empty_world).2) as [H _].
    { vm_compute. reflexivity. }
    destruct (H 104857601) as [_ Hup]; [reflexivity|vm_compute; reflexivity|].
    by rewrite Hup.
  - vm_compute. reflexivity.
  - reflexivity.
  - destruct (declared_oversize_answered_500 oversize_wrong_type encoder_ok empty_world
                (create_temp_dirs empty_world).2) as [H _].
    { vm_compute. reflexivity. }
    destruct (H 999999999) as [_ Hup]; [reflexivity|vm_compute; reflexivity|].
    by rewrite Hup.
Defined.

Lemma download_once_witness :
  ∃ w1 w2,
    download_file (uuid_str sample_uuid +:+ ".mp4")
      (mkWorld {[sample_output_path := File "MP4-VIDEO"]} [])
    = (mkResponse 200 (SentFile (uuid_str sample_uuid +:+ ".mp4") "MP4-VIDEO" true), w1)
    ∧ fs w1 = delete (Py.os_path_join CONVERTED_FOLDER (uuid_str sample_uuid +:+ ".mp4"))
                {[sample_output_path := File "MP4-VIDEO"]}
    ∧ download_file (uuid_str sample_uuid +:+ ".mp4") w1
      = (mkResponse 404 (Text "File not found."), w2)
    ∧ fs w2 = fs w1.
Proof.
  assert (fs (mkWorld {[sample_output_path := File "MP4-VIDEO"]} [])
            !! Py.os_path_join CONVERTED_FOLDER (uuid_str sample_uuid +:+ ".mp4")
          = Some (File "MP4-VIDEO")) as H by (vm_compute; reflexivity).
  exact (download_once sample_uuid "MP4-VIDEO"
           (mkWorld {[sample_output_path := File "MP4-VIDEO"]} []) H).
Defined.

Lemma download_rejects_unsanitised_witness :
  download_file "../../etc/passwd" empty_world
  = (mkResponse 400 (Text "Invalid filename"), empty_world).
Proof.
  apply (proj1 (download_rejects_unsanitised "../../etc/passwd" empty_world)).
  vm_compute. intros H. discriminate H.
Defined.

Lemma conversion_options_total_witness :
  runs (log (upload_file sample_upload encoder_ok empty_world).2)
  = [["ffmpeg"; "-i"; sample_input_path; "-crf"; "18"; "-vf"; "scale=-2:1080";
      "-codec:v"; "libx264"; "-preset"; "medium"; "-codec:a"; "aac";
      "-b:a"; "128k"; "-movflags"; "+faststart"; "-y"; "-hide_banner";
      "-loglevel"; "error"; sample_output_path]]
  ∧ runs (log (upload_file upload_odd_options encoder_ok empty_world).2)
    = [["ffmpeg"; "-i"; sample_input_path; "-crf"; "23";
        "-codec:v"; "libx264"; "-preset"; "medium"; "-codec:a"; "aac";
        "-b:a"; "128k"; "-movflags"; "+faststart"; "-y"; "-hide_banner";
        "-loglevel"; "error"; sample_output_path]]
  ∧ (upload_file upload_odd_options encoder_ok empty_world).1
    = Ok (mkResponse 200 (JsonFilename (converted_filename_of encoder_ok))).
Proof.
  destruct (conversion_options_total sample_upload encoder_ok empty_world
              (create_temp_dirs empty_world).2 (mkFile "movie.MP4" "RAW-VIDEO"))
    as (Hruns & _).
  { vm_compute. reflexivity. }
  { vm_compute. reflexivity. }
  { vm_compute. discriminate. }
  destruct (conversion_options_total upload_odd_options encoder_ok empty_world
              (create_temp_dirs empty_world).2 (mkFile "movie.MP4" "RAW-VIDEO"))
    as (Hruns' & Hok & _).
  { vm_compute. reflexivity. }
  { vm_compute. reflexivity. }
  { vm_compute. discriminate. }
  split; [|split].
  - rewrite Hruns. vm_compute. reflexivity.
  - rewrite Hruns'. vm_compute. reflexivity.
  - apply Hok. by exists (Some "MP4-VIDEO").
Defined.

(** * Further properties *)

(** ** The limiter along a run *)

Lemma run_app (limit window : Z) (l1 l2 : list (string * Z))
    (s : gmap string (list Z)) :
  run limit window (l1 ++ l2) s =
    ((run limit window l1 s).1 ++ (run limit window l2 (run limit window l1 s).2).1,
     (run limit window l2 (run limit window l1 s).2).2).
Proof.
  revert s. induction l1 as [|[ip now] l1 IH]; intros s.
  - cbn [app run fst snd]. by destruct (run limit window l2 s).
  - cbn [app run]. destruct (rate_check limit window ip now s) as [ok s1].
    rewrite IH. destruct (run limit window l1 s1) as [oks s2]. done.
Qed.

Lemma run_length (limit window : Z) (l : list (string * Z)) (s : gmap string (list Z)) :
  length (run limit window l s).1 = length l.
Proof.
  revert s. induction l as [|[ip now] l IH]; intros s; [done|].
  cbn [run]. destruct (rate_check limit window ip now s) as [ok s1].
  specialize (IH s1). destruct (run limit window l s1) as [oks s2].
  cbn [fst length] in *. by rewrite IH.
Qed.

Lemma Sorted_snoc_bound (l : list Z) (t : Z) :
  Sorted Z.le (l ++ [t]) → Sorted Z.le l ∧ Forall (λ x, x ≤ t) l.
Proof.
  induction l as [|x l IH]; cbn [app]; intros Hs; [by split|].
  apply Sorted_inv in Hs as [Hs Hhd]. destruct (IH Hs) as [Hl Hb].
  split.
  - constructor; [done|]. destruct l; [constructor|].
    cbn [app] in Hhd. apply HdRel_inv in Hhd. by constructor.
  - constructor; [|done]. destruct l as [|y l].
    + cbn [app] in Hhd. by apply HdRel_inv in Hhd.
    + cbn [app] in Hhd. apply HdRel_inv in Hhd.
      inversion Hb; subst. lia.
Qed.

(** What the store remembers of a client is, for every later call, what the
    client was granted. *)
Lemma run_store_agrees (limit window : Z) (c : string) (calls : list (string * Z)) :
  ∀ (T : Z) (store : gmap string (list Z)) (acc : list Z),
    (∀ t, T ≤ t → filter (λ ts, t - ts < window) (store !!! c)
                   = filter (λ ts, t - ts < window) acc) →
    Sorted Z.le (T :: calls.*2) →
    ∀ t, Forall (λ x, x ≤ t) (T :: calls.*2) →
      filter (λ ts, t - ts < window) ((run limit window calls store).2 !!! c)
      = filter (λ ts, t - ts < window)
          (acc ++ accepted c calls (run limit window calls store).1).
Proof.
  induction calls as [|[ip now] calls IH]; intros T store acc Hagree Hs t Hb.
  { cbn [run accepted fst snd]. rewrite app_nil_r. apply Hagree.
    by inversion Hb. }
  cbn [fmap list_fmap snd] in Hs, Hb.
  apply Sorted_inv in Hs as [Hs Hhd]. apply HdRel_inv in Hhd.
  inversion Hb as [|? ? HT Hb']; subst.
  cbn [run].
  pose proof (rate_check_window limit window ip now store) as Hw.
  pose proof (rate_check_other limit window ip c now store) as Ho.
  destruct (rate_check limit window ip now store) as [ok st1]. cbn [fst snd] in *.
  destruct (run limit window calls st1) as [oks st2] eqn:Hrun. cbn [fst snd accepted].
  destruct ok; cbn [andb].
  - case_bool_decide as Hip.
    + subst ip.
      replace (acc ++ now :: accepted c calls oks)
        with ((acc ++ [now]) ++ accepted c calls oks) by by rewrite <- app_assoc.
      specialize (IH now st1 (acc ++ [now])). rewrite Hrun in IH. cbn [fst snd] in IH.
      apply IH; [|done|done].
      intros t' Ht'. rewrite Hw, !filter_app, fresh_later by done.
      f_equal. apply Hagree. lia.
    + specialize (IH now st1 acc). rewrite Hrun in IH. cbn [fst snd] in IH.
      apply IH; [|done|done].
      intros t' Ht'. rewrite Ho by done. apply Hagree. lia.
  - specialize (IH now st1 acc). rewrite Hrun in IH. cbn [fst snd] in IH.
    apply IH; [|done|done].
    intros t' Ht'. destruct (decide (ip = c)) as [->|Hne].
    + rewrite Hw, fresh_later by done. apply Hagree. lia.
    + rewrite Ho by done. apply Hagree. lia.
Qed.

(** X1. With a clock that does not run backwards up to the call, the limiter
    accepts a call exactly when fewer than [limit] of the calls it has
    already accepted from that client are younger than [window]; what the
    client or anybody else does afterwards plays no part. *)
Theorem limiter_decision (limit window : Z) (pre post : list (string * Z))
    (c : string) (t : Z) :
  Sorted Z.le (pre.*2 ++ [t]) →
  (run limit window (pre ++ (c, t) :: post) ∅).1 !! length pre
  = Some (bool_decide
            (Z.of_nat (recent window t (accepted c pre (run limit window pre ∅).1))
             < limit)).
Proof.
  intros Hs. apply Sorted_snoc_bound in Hs as [Hs Hb].
  rewrite run_app. cbn [fst].
  rewrite lookup_app_r by (rewrite run_length; lia).
  rewrite run_length, Nat.sub_diag. cbn [run].
  pose proof (rate_check_decision limit window c t (run limit window pre ∅).2) as Hd.
  assert (filter (λ ts, t - ts < window) ((run limit window pre ∅).2 !!! c)
          = filter (λ ts, t - ts < window) (accepted c pre (run limit window pre ∅).1))
    as Hagree.
  { destruct pre as [|[ip0 t0] pre'].
    - cbn [run accepted fst snd]. by rewrite lookup_total_empty.
    - apply (run_store_agrees limit window c ((ip0, t0) :: pre') t0 ∅ []).
      + intros t' _. by rewrite lookup_total_empty.
      + cbn [fmap list_fmap snd] in *. constructor; [done|]. constructor. lia.
      + cbn [fmap list_fmap snd] in *. constructor; [|done]. by inversion Hb. }
  rewrite Hagree in Hd. unfold recent.
  destruct (rate_check limit window c t (run limit window pre ∅).2) as [ok s1].
  destruct (run limit window post s1) as [oks s2]. cbn [fst lookup] in *.
  simpl. f_equal. destruct ok.
  - symmetry. apply bool_decide_eq_true. by apply Hd.
  - symmetry. apply bool_decide_eq_false. intros Hlt. by apply Hd in Hlt.
Qed.

Lemma rate_check_same_window (limit window : Z) (ip : string) (now : Z)
    (s1 s2 : gmap string (list Z)) :
  s1 !!! ip = s2 !!! ip →
  (rate_check limit window ip now s1).1 = (rate_check limit window ip now s2).1
  ∧ (rate_check limit window ip now s1).2 !!! ip
    = (rate_check limit window ip now s2).2 !!! ip.
Proof.
  intros Heq.
  assert ((rate_check limit window ip now s1).1 = (rate_check limit window ip now s2).1)
    as Hd.
  { unfold rate_check. rewrite Heq. by case_decide. }
  split; [done|]. by rewrite !rate_check_window, <- Hd, Heq.
Qed.

Lemma run_client_alone (limit window : Z) (c : string) (calls : list (string * Z)) :
  ∀ s1 s2 : gmap string (list Z),
    s1 !!! c = s2 !!! c →
    accepted c calls (run limit window calls s1).1
    = accepted c (calls_of c calls) (run limit window (calls_of c calls) s2).1.
Proof.
  unfold calls_of.
  induction calls as [|[ip now] calls IH]; intros s1 s2 Heq; [done|].
  destruct (decide (ip = c)) as [->|Hne].
  - rewrite filter_cons_True by done. cbn [run].
    destruct (rate_check_same_window limit window c now s1 s2 Heq) as [Hd Hw].
    destruct (rate_check limit window c now s1) as [ok1 t1].
    destruct (rate_check limit window c now s2) as [ok2 t2].
    cbn [fst snd] in Hd, Hw. subst ok2.
    specialize (IH t1 t2 Hw).
    destruct (run limit window calls t1) as [oks1 u1].
    destruct (run limit window (filter (λ x, x.1 = c) calls) t2) as [oks2 u2].
    cbn [fst accepted] in *. by rewrite IH.
  - rewrite filter_cons_False by done. cbn [run].
    pose proof (rate_check_other limit window ip c now s1 Hne) as Ho.
    destruct (rate_check limit window ip now s1) as [ok1 t1]. cbn [snd] in Ho.
    assert (t1 !!! c = s2 !!! c) as Heq' by by rewrite Ho.
    specialize (IH t1 s2 Heq').
    destruct (run limit window calls t1) as [oks1 u1]. cbn [fst accepted] in *.
    rewrite bool_decide_eq_false_2 by done. by rewrite andb_false_r.
Qed.

(** X2. What a client is granted does not depend on the other clients: the
    times at which its calls are accepted in a run are those at which they
    are accepted when its calls are the only ones. *)
Theorem limiter_clients_independent (limit window : Z) (c : string)
    (calls : list (string * Z)) :
  accepted c calls (run limit window calls ∅).1
  = accepted c (calls_of c calls) (run limit window (calls_of c calls) ∅).1.
Proof. by apply run_client_alone. Qed.

(** ** The limiter inside the application *)

Lemma serve_store (r : Request) (app : App) :
  request_timestamps (serve r app).2 =
    match r with
    | PostUpload req now env =>
        (rate_check RATE_LIMIT_REQUESTS RATE_LIMIT_WINDOW_SECONDS (remote_addr req) now
           (request_timestamps app)).2
    | _ => request_timestamps app
    end.
Proof.
  destruct r as [|req now env|name]; cbn [serve].
  - by destruct (index (world app)).
  - unfold rate_limit.
    destruct (rate_check _ _ _ _ _) as [[|] store]; [|done].
    by destruct (upload_file req env (world app)).
  - by destruct (download_file name (world app)).
Qed.

(** X3. However many requests of whatever kind are served, starting with an
    empty store, no client's list of timestamps ever holds more than
    [RATE_LIMIT_REQUESTS] entries; a client that never uploaded has none. *)
Theorem store_stays_bounded (rs : list Request) (w : World) (c : string) :
  (length (request_timestamps (serve_all rs (mkApp ∅ w)).2 !!! c) ≤ 5)%nat
  ∧ ((∀ req now env, PostUpload req now env ∈ rs → remote_addr req ≠ c) →
     request_timestamps (serve_all rs (mkApp ∅ w)).2 !!! c = []).
Proof.
  assert (∀ app, reachable RATE_LIMIT_REQUESTS RATE_LIMIT_WINDOW_SECONDS
                   (request_timestamps app) →
                 reachable RATE_LIMIT_REQUESTS RATE_LIMIT_WINDOW_SECONDS
                   (request_timestamps (serve_all rs app).2)) as Hreach.
  { induction rs as [|r rs IH]; intros app Happ; [done|].
    cbn [serve_all]. pose proof (serve_store r app) as Hs.
    destruct (serve r app) as [resp app1]. cbn [snd] in Hs.
    specialize (IH app1).
    destruct (serve_all rs app1) as [resps app2]. cbn [snd] in *.
    apply IH. rewrite Hs. destruct r; try done. by apply reachable_step. }
  split.
  - pose proof (reachable_bounded _ _ _
                  (Hreach (mkApp ∅ w) (reachable_empty _ _)) c) as Hb.
    unfold RATE_LIMIT_REQUESTS in Hb. lia.
  - assert (∀ app, request_timestamps app !!! c = [] →
              (∀ req now env, PostUpload req now env ∈ rs → remote_addr req ≠ c) →
              request_timestamps (serve_all rs app).2 !!! c = []) as Hquiet.
    { clear Hreach. induction rs as [|r rs IH]; intros app Happ Hrs; [done|].
      cbn [serve_all]. pose proof (serve_store r app) as Hs.
      destruct (serve r app) as [resp app1]. cbn [snd] in Hs.
      specialize (IH app1).
      destruct (serve_all rs app1) as [resps app2]. cbn [snd] in *.
      apply IH.
      - rewrite Hs. destruct r as [|req now env|name]; try done.
        rewrite rate_check_other; [done|].
        apply (Hrs req now env). apply list_elem_of_here.
      - intros req now env Hin. apply (Hrs req now env).
        by apply list_elem_of_further. }
    intros Hrs. apply Hquiet; [|done]. cbn [request_timestamps].
    by rewrite lookup_total_empty.
Qed.

(** X4. The limiter records an upload before the handler looks at it: every
    upload that is not answered 429 has put its time at the end of its
    client's window, whatever the handler then answers, a rejection by
    validation included. *)
Theorem passed_upload_is_counted (req : UploadRequest) (now : Z) (env : Env)
    (app app' : App) (resp : Response) :
  serve (PostUpload req now env) app = (resp, app') →
  status resp ≠ 429 →
  request_timestamps app' !!! remote_addr req
  = filter (λ ts, now - ts < RATE_LIMIT_WINDOW_SECONDS)
      (request_timestamps app !!! remote_addr req) ++ [now].
Proof.
  intros Hserve Hst.
  pose proof (serve_store (PostUpload req now env) app) as Hs.
  rewrite Hserve in Hs. cbn [snd] in Hs. rewrite Hs, rate_check_window.
  revert Hserve. cbn [serve]. unfold rate_limit.
  destruct (rate_check _ _ _ _ _) as [[|] store]; [done|].
  intros [= <- _]. done.
Qed.

(** ** The file-system helpers, alone and repeated *)

(** X5. [cleanup_file] removes at most the file it is given: every other
    path is untouched, a path that holds no regular file (nothing, a
    directory, or the empty path) is left as it is, and a second call on the
    same path changes nothing any more. *)
Theorem cleanup_file_idempotent (filepath : option string) (w : World) :
  fs (cleanup_file filepath (cleanup_file filepath w)) = fs (cleanup_file filepath w)
  ∧ (∀ q, filepath ≠ Some q → fs (cleanup_file filepath w) !! q = fs w !! q)
  ∧ (∀ p, filepath = Some p → is_file (fs w) p = false →
          fs (cleanup_file filepath w) = fs w)
  ∧ (∀ p, filepath = Some p → p ≠ "" →
          is_file (fs (cleanup_file filepath w)) p = false).
Proof.
  split; [|split; [|split]].
  - rewrite !cleanup_file_fs. destruct filepath as [p|]; [|done].
    destruct (Py.truthy p); cbn [andb]; [|done].
    destruct (is_file (fs w) p) eqn:Hf; [|by rewrite Hf].
    unfold is_file. by rewrite lookup_delete_eq.
  - intros q Hq. by apply cleanup_file_other.
  - intros p -> Hf. by rewrite cleanup_file_fs, Hf, andb_false_r.
  - intros p -> Hp. apply cleanup_file_released. by destruct p.
Qed.

Lemma os_makedirs_outcome (p : string) (w : World) :
  os_makedirs p w =
    (if is_file (fs w) p then Raise FileExistsError else Ok tt,
     mkWorld (ensure_dir p (fs w)) (log w ++ [EvMakedirs p])).
Proof.
  unfold os_makedirs, ensure_dir, is_file, emit. cbn [fs log].
  by destruct (fs w !! p) as [[|d]|].
Qed.

Lemma create_temp_dirs_outcome (w : World) :
  create_temp_dirs w =
    if is_file (fs w) UPLOAD_FOLDER then
      (Raise FileExistsError,
       mkWorld (ensure_dir UPLOAD_FOLDER (fs w)) (log w ++ [EvMakedirs UPLOAD_FOLDER]))
    else
      (if is_file (fs w) CONVERTED_FOLDER then Raise FileExistsError else Ok tt,
       mkWorld (ensure_dir CONVERTED_FOLDER (ensure_dir UPLOAD_FOLDER (fs w)))
         (log w ++ [EvMakedirs UPLOAD_FOLDER; EvMakedirs CONVERTED_FOLDER])).
Proof.
  unfold create_temp_dirs. rewrite os_makedirs_outcome.
  destruct (is_file (fs w) UPLOAD_FOLDER); [done|].
  rewrite os_makedirs_outcome. cbn [fs log].
  by rewrite ensure_dir_is_file, <- app_assoc.
Qed.

Lemma ensure_dir_lookup (p : string) (m : gmap string Node) :
  is_file m p = false → ensure_dir p m !! p = Some Dir.
Proof.
  unfold ensure_dir, is_file. destruct (m !! p) as [[|d]|] eqn:Hp; try done.
  by rewrite lookup_insert_eq.
Qed.

Lemma ensure_dir_present (p : string) (m : gmap string Node) :
  m !! p = Some Dir → ensure_dir p m = m.
Proof. unfold ensure_dir. by intros ->. Qed.

(** X6. [create_temp_dirs] succeeds exactly when neither folder name is taken
    by a regular file. Whatever the outcome it creates and removes no file and
    touches no path but the two folders; after a success both are
    directories, and running it again succeeds and changes nothing. *)
Theorem create_temp_dirs_ensures (w : World) :
  ((create_temp_dirs w).1 = Ok tt ↔
     is_file (fs w) UPLOAD_FOLDER = false ∧ is_file (fs w) CONVERTED_FOLDER = false)
  ∧ (∀ p, is_file (fs (create_temp_dirs w).2) p = is_file (fs w) p)
  ∧ (∀ p, p ≠ UPLOAD_FOLDER → p ≠ CONVERTED_FOLDER →
          fs (create_temp_dirs w).2 !! p = fs w !! p)
  ∧ ((create_temp_dirs w).1 = Ok tt →
     fs (create_temp_dirs w).2 !! UPLOAD_FOLDER = Some Dir
     ∧ fs (create_temp_dirs w).2 !! CONVERTED_FOLDER = Some Dir
     ∧ (create_temp_dirs (create_temp_dirs w).2).1 = Ok tt
     ∧ fs (create_temp_dirs (create_temp_dirs w).2).2 = fs (create_temp_dirs w).2).
Proof.
  rewrite create_temp_dirs_outcome.
  destruct (is_file (fs w) UPLOAD_FOLDER) eqn:F1; cbn [fst snd fs].
  { split; [split; [done|by intros [? ?]]|].
    split; [intros p; apply ensure_dir_is_file|].
    split; [intros p N1 _; by apply ensure_dir_other|done]. }
  destruct (is_file (fs w) CONVERTED_FOLDER) eqn:F2.
  { split; [split; [done|by intros [? ?]]|].
    split; [intros p; by rewrite !ensure_dir_is_file|].
    split; [intros p N1 N2; by rewrite !ensure_dir_other|done]. }
  split; [done|].
  split; [intros p; by rewrite !ensure_dir_is_file|].
  split; [intros p N1 N2; by rewrite !ensure_dir_other|]. intros _.
  assert (ensure_dir CONVERTED_FOLDER (ensure_dir UPLOAD_FOLDER (fs w)) !! UPLOAD_FOLDER
          = Some Dir) as D1.
  { rewrite ensure_dir_other by done. by apply ensure_dir_lookup. }
  assert (ensure_dir CONVERTED_FOLDER (ensure_dir UPLOAD_FOLDER (fs w))
            !! CONVERTED_FOLDER = Some Dir) as D2.
  { apply ensure_dir_lookup. by rewrite ensure_dir_is_file. }
  split; [done|]. split; [done|].
  assert (is_file (ensure_dir CONVERTED_FOLDER (ensure_dir UPLOAD_FOLDER (fs w)))
            UPLOAD_FOLDER = false) as E1 by (unfold is_file; by rewrite D1).
  assert (is_file (ensure_dir CONVERTED_FOLDER (ensure_dir UPLOAD_FOLDER (fs w)))
            CONVERTED_FOLDER = false) as E2 by (unfold is_file; by rewrite D2).
  rewrite create_temp_dirs_outcome. cbn [fs log]. rewrite E1, E2. cbn [fst snd fs].
  split; [done|].
  rewrite (ensure_dir_present UPLOAD_FOLDER
             (ensure_dir CONVERTED_FOLDER (ensure_dir UPLOAD_FOLDER (fs w)))) by done.
  by apply ensure_dir_present.
Qed.

(** ** What an upload leaves behind *)

Lemma encoder_write_other (q p : string) (written : option string)
    (m : gmap string Node) :
  q ≠ p → encoder_write q written m !! p = m !! p.
Proof.
  intros Hne. unfold encoder_write. destruct written as [data|]; [|done].
  destruct (m !! q) as [[|d]|]; by rewrite ?lookup_insert_ne.
Qed.

Lemma upload_finally_other (l : Locals) (w1 : World) (p : string) :
  upload_path l ≠ Some p → converted_path l ≠ Some p →
  fs (upload_finally l w1) !! p = fs w1 !! p.
Proof.
  intros N1 N2. unfold upload_finally.
  destruct (process l) as [rc|]; [case_decide|];
    by rewrite ?cleanup_file_other.
Qed.

Lemma upload_try_other (req : UploadRequest) (env : Env) (w0 : World) (p : string) :
  (∀ file, videoFile req = Some file → p ≠ upload_path_of file env) →
  p ≠ converted_path_of env →
  fs (upload_try req env w0).2 !! p = fs w0 !! p
  ∧ upload_path (upload_try req env w0).1.1 ≠ Some p
  ∧ converted_path (upload_try req env w0).1.1 ≠ Some p.
Proof.
  intros Nup Ncp. pose proof (upload_try_stages req env w0) as Hs.
  destruct (Spec.validate req) as [file|e]; [|by rewrite Hs].
  cbv zeta in Hs. destruct Hs as [Hfile Hs]. specialize (Nup file Hfile).
  assert (Some (upload_path_of file env) ≠ Some p) as N1 by congruence.
  assert (Some (converted_path_of env) ≠ Some p) as N2 by congruence.
  case_decide; [by rewrite Hs|].
  destruct (ffmpeg env _ _) as [rc wr|e]; rewrite Hs; cbn [fst snd fs].
  - split; [|by case_decide].
    rewrite encoder_write_other by done. by apply lookup_insert_ne.
  - split; [|done]. by apply lookup_insert_ne.
Qed.

Lemma upload_file_other (req : UploadRequest) (env : Env) (w w0 : World) (p : string) :
  create_temp_dirs w = (Ok tt, w0) →
  (∀ file, videoFile req = Some file → p ≠ upload_path_of file env) →
  p ≠ converted_path_of env →
  fs (upload_file req env w).2 !! p = fs w0 !! p.
Proof.
  intros Hd Nup Ncp. rewrite (upload_file_entered req env w w0 Hd). cbn [snd].
  destruct (upload_try_other req env w0 p Nup Ncp) as (Hfs & N1 & N2).
  by rewrite upload_finally_other.
Qed.

(** X7. Whatever its outcome, an upload changes the file system at most at
    the path it reserved for its input, the path it reserved for its output,
    and the two folders: every other path holds afterwards what it held
    before (the encoder writing nowhere but to the output path it is
    given). *)
Theorem upload_touches_only_its_paths (req : UploadRequest) (env : Env) (w : World)
    (p : string) :
  p ≠ UPLOAD_FOLDER → p ≠ CONVERTED_FOLDER →
  (∀ file, videoFile req = Some file → p ≠ upload_path_of file env) →
  p ≠ converted_path_of env →
  fs (upload_file req env w).2 !! p = fs w !! p.
Proof.
  intros NU NC Nup Ncp.
  destruct (create_temp_dirs w) as [[[]|e] w0] eqn:Hd.
  - rewrite (upload_file_other req env w w0 p Hd Nup Ncp).
    destruct (create_temp_dirs_ok w w0 Hd) as [-> _].
    by rewrite !ensure_dir_other.
  - unfold upload_file. rewrite Hd. cbn [snd].
    destruct (create_temp_dirs_raise w w0 e Hd) as [-> _].
    by rewrite ensure_dir_other.
Qed.

Lemma index_fs (w : World) : fs (index w).2 = fs w.
Proof.
  unfold index, send_from_directory, emit. cbn [fs log].
  by destruct (fs w !! _) as [[|d]|].
Qed.

Lemma is_file_delete (m : gmap string Node) (q p : string) :
  is_file (delete q m) p = true → is_file m p = true.
Proof.
  unfold is_file. destruct (decide (q = p)) as [->|Hne].
  - by rewrite lookup_delete_eq.
  - by rewrite lookup_delete_ne.
Qed.

Lemma download_file_keeps (name : string) (w : World) (p : string) :
  is_file (fs (download_file name w).2) p = true → is_file (fs w) p = true.
Proof.
  pose proof (download_file_cases name w) as H. case_decide.
  - destruct H as [_ H]. cbv zeta in H.
    destruct (fs w !! _) as [[|d]|]; rewrite H; cbn [snd fs]; try done.
    apply is_file_delete.
  - by rewrite H.
Qed.

(** X8. With an encoder that writes nowhere but to the output path it is
    given, no request leaves a new file behind except a successful conversion:
    if after serving a request some path holds a regular file that was not
    there before, the request was an upload answered 200 and the path is the
    output path of that upload. *)
Theorem only_conversions_create_files (r : Request) (app : App) (p : string) :
  is_file (fs (world (serve r app).2)) p = true →
  is_file (fs (world app)) p = true
  ∨ ∃ req now env, r = PostUpload req now env
                   ∧ p = converted_path_of env
                   ∧ status (serve r app).1 = 200.
Proof.
  destruct r as [|req now env|name]; cbn [serve].
  - pose proof (index_fs (world app)) as Hfs.
    destruct (index (world app)) as [resp w1]. cbn [fst snd world] in *.
    rewrite Hfs. by left.
  - unfold rate_limit.
    destruct (rate_check _ _ _ _ _) as [[|] store]; [|by left].
    destruct (upload_file req env (world app)) as [res w'] eqn:Hup.
    cbn [fst snd world]. intros Hp.
    destruct (create_temp_dirs (world app)) as [[[]|e] w0] eqn:Hd.
    + destruct (create_temp_dirs_ok _ _ Hd) as [Hfs0 _].
      assert (∀ q, is_file (fs w0) q = is_file (fs (world app)) q) as Hsame.
      { intros q. by rewrite Hfs0, !ensure_dir_is_file. }
      destruct (Spec.validate req) as [file|e] eqn:Hv.
      * destruct (upload_file_converting req env (world app) w0 file Hd Hv)
          as (resp & w1 & evs & Hrun & _ & _ & _ & Hup0 & _ & Hcases).
        rewrite Hrun in Hup. injection Hup as <- <-.
        destruct (decide (p = converted_path_of env)) as [->|Ncp].
        -- destruct Hcases as [(-> & _)|(_ & _ & Hcp & _)].
           ++ right. by exists req, now, env.
           ++ by rewrite Hcp in Hp.
        -- destruct (decide (p = upload_path_of file env)) as [->|Nup].
           { by rewrite Hup0 in Hp. }
           left. rewrite <- Hsame. revert Hp. unfold is_file.
           replace w1 with (upload_file req env (world app)).2 by by rewrite Hrun.
           rewrite (upload_file_other req env (world app) w0 p Hd); [done| |done].
           intros file' Hf'. pose proof (validated_file req file Hv) as Hf.
           rewrite Hf in Hf'. by injection Hf' as <-.
      * rewrite (upload_file_rejected req env (world app) w0 e Hd Hv) in Hup.
        injection Hup as <- <-. cbn [fs] in Hp. left. by rewrite <- Hsame.
    + unfold upload_file in Hup. rewrite Hd in Hup. injection Hup as <- <-.
      destruct (create_temp_dirs_raise _ _ _ Hd) as [Hfs0 _].
      left. by rewrite Hfs0, ensure_dir_is_file in Hp.
  - pose proof (download_file_keeps name (world app) p) as Hk.
    destruct (download_file name (world app)) as [resp w1].
    cbn [fst snd world] in *. intros Hp. left. by apply Hk.
Qed.

(** X9. A download is answered 200 exactly when the requested name is left
    alone by sanitisation and names a regular file of the converted folder; a
    directory of that name, a missing file or an unsanitised name is never
    served, and then the file system is left as it was. *)
Theorem download_served_iff (name : string) (w : World) :
  (status (download_file name w).1 = 200 ↔
     Werkzeug.secure_filename name = name
     ∧ is_file (fs w) (CONVERTED_FOLDER +:+ "/" +:+ name) = true)
  ∧ (status (download_file name w).1 ≠ 200 → fs (download_file name w).2 = fs w).
Proof.
  pose proof (download_file_cases name w) as H. unfold is_file.
  case_decide as Hfix.
  - destruct H as [_ H]. cbv zeta in H.
    change (CONVERTED_FOLDER +:+ "/" +:+ name) with ("converted/" +:+ name).
    destruct (fs w !! ("converted/" +:+ name)) as [[|d]|]; rewrite H;
      cbn [fst snd status fs]; (split; [split; [done|by intros [_ ?]]|done]).
  - rewrite H. cbn [fst snd status]. split; [|done].
    split; [done|]. by intros [? _].
Qed.

Lemma snoc_not_self {A : Type} (l : list A) (x : A) : l ++ [x] ≠ l.
Proof.
  intros E. apply (f_equal length) in E. rewrite length_app in E. cbn in E. lia.
Qed.

Lemma upload_file_same_encoder (req : UploadRequest) (u : N)
    (f1 f2 : list string → gmap string Node → EncoderOutcome) (w : World) :
  match (create_temp_dirs w).1, Spec.validate req with
  | Ok _, Ok file =>
      fs w !! upload_path_of file (mkEnv u f1) ≠ Some Dir →
      let saved := <[upload_path_of file (mkEnv u f1) := File (stream file)]>
                     (ensure_dir CONVERTED_FOLDER (ensure_dir UPLOAD_FOLDER (fs w))) in
      f1 (command_of req file (mkEnv u f1)) saved
      = f2 (command_of req file (mkEnv u f1)) saved
  | _, _ => True
  end →
  upload_file req (mkEnv u f1) w = upload_file req (mkEnv u f2) w.
Proof.
  unfold upload_file.
  destruct (create_temp_dirs w) as [[[]|e] w0] eqn:Hd; [|done]. cbn [fst].
  destruct (create_temp_dirs_ok w w0 Hd) as [Hfs0 _].
  pose proof (upload_try_stages req (mkEnv u f1) w0) as H1.
  pose proof (upload_try_stages req (mkEnv u f2) w0) as H2.
  destruct (Spec.validate req) as [file|e] eqn:Hv.
  - intros Hagree.
    cbv zeta in H1, H2. destruct H1 as [Hfile H1]. destruct H2 as [_ H2].
    cbv zeta in Hagree.
    change (upload_path_of file (mkEnv u f2)) with (upload_path_of file (mkEnv u f1)) in H2.
    change (converted_path_of (mkEnv u f2)) with (converted_path_of (mkEnv u f1)) in H2.
    change (converted_filename_of (mkEnv u f2))
      with (converted_filename_of (mkEnv u f1)) in H2.
    change (command_of req file (mkEnv u f2)) with (command_of req file (mkEnv u f1)) in H2.
    cbn [ffmpeg] in H1, H2.
    destruct (decide (fs w0 !! upload_path_of file (mkEnv u f1) = Some Dir)) as [Hdir|Hdir].
    + by rewrite H1, H2.
    + rewrite Hfs0 in H1, H2, Hdir. rewrite <- Hagree in H2.
      * destruct (f1 _ _) as [rc wr|e']; by rewrite H1, H2.
      * destruct (upload_path_not_folder file (mkEnv u f1)) as [N1 N2].
        by rewrite !ensure_dir_other in Hdir.
  - intros _. by rewrite H1, H2.
Qed.

(** X10. The handler calls the encoder at most once, and exactly once when
    the folders could be ensured, the request passes validation and its input
    could be saved: then on the command it built and on the file system in
    which the input path holds the uploaded bytes, and two encoders that agree
    there make the whole upload come out the same. Nothing is retried. An
    upload that called no encoder (it failed validation, declared an excessive
    length, or its input or the folders could not be written) does not depend
    on the encoder at all. *)
Theorem encoder_consulted_once (req : UploadRequest) (u : N)
    (f1 f2 : list string → gmap string Node → EncoderOutcome) (w : World) :
  let env := mkEnv u f1 in
  (∀ file, (create_temp_dirs w).1 = Ok tt → Spec.validate req = Ok file →
     fs w !! upload_path_of file env ≠ Some Dir →
     let saved := <[upload_path_of file env := File (stream file)]>
                    (ensure_dir CONVERTED_FOLDER (ensure_dir UPLOAD_FOLDER (fs w))) in
     runs (log (upload_file req env w).2) = runs (log w) ++ [command_of req file env]
     ∧ (f1 (command_of req file env) saved = f2 (command_of req file env) saved →
        upload_file req (mkEnv u f1) w = upload_file req (mkEnv u f2) w)
     ∧ ((upload_file req env w).1
          = Ok (mkResponse 200 (JsonFilename (converted_filename_of env)))
        ↔ ∃ written, f1 (command_of req file env) saved = Exited 0 written))
  ∧ (((∃ e, (create_temp_dirs w).1 = Raise e)
      ∨ (∃ e, Spec.validate req = Raise e)
      ∨ (∃ file, Spec.validate req = Ok file
                 ∧ fs w !! upload_path_of file env = Some Dir)) →
     runs (log (upload_file req env w).2) = runs (log w))
  ∧ (runs (log (upload_file req env w).2) = runs (log w) →
     upload_file req (mkEnv u f1) w = upload_file req (mkEnv u f2) w).
Proof.
  intros env. pose proof (upload_file_runs req env w) as Hruns.
  pose proof (upload_file_same_encoder req u f1 f2 w) as Hsame.
  fold env in Hsame.
  split; [|split].
  - intros file Hd Hv Hdir saved. rewrite Hd, Hv in Hruns, Hsame.
    rewrite decide_False in Hruns by done.
    split; [done|]. split; [by intros Hagree; apply Hsame|].
    destruct (create_temp_dirs w) as [r w0] eqn:Hd0. cbn [fst] in Hd. subst r.
    destruct (create_temp_dirs_ok w w0 Hd0) as [Hfs0 _].
    destruct (upload_file_converting req env w w0 file Hd0 Hv)
      as (resp & w1 & evs & Hup & _ & _ & _ & _ & _ & Hcases).
    cbv zeta in Hcases. rewrite Hfs0 in Hcases. fold saved in Hcases.
    change (ffmpeg env) with f1 in Hcases.
    rewrite Hup. cbn [fst]. split.
    + intros [= ->].
      destruct Hcases as [(_ & _ & _ & written & Hrun & _)|(Hst & _)]; [|done].
      by exists written.
    + intros [written Hrun].
      destruct Hcases as [(-> & _)|(_ & _ & _ & [Hx|[[e He]|(rc & wr & Hrc & Hx)]])];
        [done| |congruence|].
      * destruct (upload_path_not_folder file env) as [N1 N2].
        by rewrite !ensure_dir_other in Hx.
      * rewrite Hrun in Hx. by injection Hx as <- _.
  - intros [[e He]|[[e He]|(file & Hv & Hdir)]].
    + rewrite He in Hruns. by rewrite app_nil_r in Hruns.
    + rewrite He in Hruns. destruct ((create_temp_dirs w).1);
        by rewrite app_nil_r in Hruns.
    + rewrite Hv, decide_True in Hruns by done.
      destruct ((create_temp_dirs w).1); by rewrite app_nil_r in Hruns.
  - intros Hnone. apply Hsame.
    destruct ((create_temp_dirs w).1) as [[]|e]; [|done].
    destruct (Spec.validate req) as [file|e]; [|done].
    intros Hdir. rewrite decide_False in Hruns by done.
    rewrite Hruns in Hnone. by apply snoc_not_self in Hnone.
Qed.

(** X14. Round trip. When an upload passes validation, its two reserved
    paths are not directories and the encoder exits with status 0 having
    written some bytes, the upload answers 200 with a name, the first
    download of that name returns exactly those bytes, and the second
    download is answered 404. *)
Theorem converted_bytes_round_trip (req : UploadRequest) (env : Env) (w w0 : World)
    (file : FileStorage) (data : string) :
  create_temp_dirs w = (Ok tt, w0) →
  Spec.validate req = Ok file →
  fs w !! upload_path_of file env ≠ Some Dir →
  fs w !! converted_path_of env ≠ Some Dir →
  ffmpeg env (command_of req file env)
    (<[upload_path_of file env := File (stream file)]> (fs w0))
  = Exited 0 (Some data) →
  ∃ name w1 w2 w3,
    upload_file req env w = (Ok (mkResponse 200 (JsonFilename name)), w1)
    ∧ download_file name w1 = (mkResponse 200 (SentFile name data true), w2)
    ∧ download_file name w2 = (mkResponse 404 (Text "File not found."), w3).
Proof.
  intros Hd Hv Nup Ncp Hrun.
  destruct (create_temp_dirs_ok w w0 Hd) as [Hfs0 _].
  destruct (upload_path_not_folder file env) as [U1 U2].
  destruct (converted_path_not_folder env) as [C1 C2].
  assert (fs w0 !! upload_path_of file env ≠ Some Dir) as Nup0
    by by rewrite Hfs0, !ensure_dir_other.
  assert (fs w0 !! converted_path_of env ≠ Some Dir) as Ncp0
    by by rewrite Hfs0, !ensure_dir_other.
  destruct (upload_file_converting req env w w0 file Hd Hv)
    as (resp & w1 & evs & Hup & _ & _ & _ & _ & _ & Hcases).
  cbv zeta in Hcases. rewrite Hrun in Hcases.
  destruct Hcases as [(-> & _ & _ & written & [= <-] & Hcp)
                     |(_ & _ & _ & [Hdir|[[e He]|(rc & wr & Hrc & [= <- _])]])];
    try done.
  assert (fs w1 !! Py.os_path_join CONVERTED_FOLDER (converted_filename_of env)
          = Some (File data)) as Hfile.
  { change (Py.os_path_join CONVERTED_FOLDER (converted_filename_of env))
      with (converted_path_of env).
    rewrite Hcp. unfold encoder_write.
    pose proof (paths_distinct file env) as Hne.
    rewrite (lookup_insert_ne _ (upload_path_of file env) (converted_path_of env))
      by done.
    destruct (fs w0 !! converted_path_of env) as [[|d]|] eqn:Hl; [done|..];
      by rewrite lookup_insert_eq. }
  destruct (upload_then_download req env w w1 _ data Hup Hfile) as (w2 & w3 & H1 & H2).
  by exists (converted_filename_of env), w1, w2, w3.
Qed.

(** ** File names *)

Lemma chars_lower (s : string) : Py.chars (Py.lower s) = map Py.lower_char (Py.chars s).
Proof. unfold Py.lower. apply chars_str. Qed.

Lemma lower_char_facts (c : ascii) :
  Py.lower_char (Py.lower_char c) = Py.lower_char c
  ∧ Ascii.eqb (Py.lower_char c) "." = Ascii.eqb c "."
  ∧ (Werkzeug.filename_char c = true → Werkzeug.filename_char (Py.lower_char c) = true).
Proof. destruct c as [[] [] [] [] [] [] [] []]; vm_compute; by repeat split. Qed.

Lemma map_lower_char_idemp (l : list ascii) :
  map Py.lower_char (map Py.lower_char l) = map Py.lower_char l.
Proof.
  induction l as [|c l IH]; [done|]. cbn [map].
  by rewrite IH, (proj1 (lower_char_facts c)).
Qed.

Lemma lower_idemp (s : string) : Py.lower (Py.lower s) = Py.lower s.
Proof.
  apply chars_inj. by rewrite !chars_lower, map_lower_char_idemp.
Qed.

Lemma rsplit1_chars_lower (l : list ascii) :
  Py.rsplit1_chars "." (map Py.lower_char l)
  = (λ ht, (map Py.lower_char ht.1, map Py.lower_char ht.2)) <$> Py.rsplit1_chars "." l.
Proof.
  induction l as [|c l IH]; [done|]. cbn [map Py.rsplit1_chars]. rewrite IH.
  destruct (Py.rsplit1_chars "." l) as [[h t]|]; [done|]. cbn [fmap option_fmap option_map].
  destruct (lower_char_facts c) as (_ & -> & _). by destruct (Ascii.eqb c ".").
Qed.

Lemma allowed_file_lower (name : string) :
  allowed_file (Py.lower name) = allowed_file name.
Proof.
  unfold allowed_file, Py.contains, Py.rsplit1.
  rewrite !contains_rsplit, chars_lower, rsplit1_chars_lower.
  destruct (Py.rsplit1_chars "." (Py.chars name)) as [[h t]|];
    cbn [fmap option_fmap option_map fst snd]; [|done].
  cbn [lookup list_lookup]. simpl.
  replace (Py.lower (Py.str (map Py.lower_char t))) with (Py.lower (Py.str t)); [done|].
  apply chars_inj. by rewrite !chars_lower, !chars_str, map_lower_char_idemp.
Qed.

(** X11. The extension check is blind to letter case throughout the name:
    two names that differ only in the case of their letters are both allowed
    or both refused. *)
Theorem allowed_file_ignores_case (a b : string) :
  Py.lower a = Py.lower b → allowed_file a = allowed_file b.
Proof.
  intros Hab. by rewrite <- (allowed_file_lower a), <- (allowed_file_lower b), Hab.
Qed.

(** *** Where an upload is saved *)

Lemma rsplit1_tail_Forall (P : ascii → Prop) (c : ascii) (l h t : list ascii) :
  Py.rsplit1_chars c l = Some (h, t) → Forall P l → Forall P t.
Proof.
  intros Hr Hl. apply rsplit1_chars_Some in Hr as [-> _].
  apply Forall_app in Hl as [_ Hl]. by inversion Hl.
Qed.

Lemma original_extension_chars (sf : string) :
  Forall (λ c, Werkzeug.filename_char c = true) (Py.chars sf) →
  Forall (λ c, Werkzeug.filename_char c = true)
    (Py.chars (if Py.contains "." sf
               then default "" (Py.lower <$> (Py.rsplit1 "." sf !! 1%nat))
               else "")).
Proof.
  intros Hsf. destruct (Py.contains "." sf); [|constructor].
  unfold Py.rsplit1.
  destruct (Py.rsplit1_chars "." (Py.chars sf)) as [[h t]|] eqn:Hr; [|constructor].
  cbn [lookup list_lookup fmap option_fmap option_map default from_option id].
  simpl. rewrite chars_lower, chars_str.
  apply Forall_fmap. pose proof (rsplit1_tail_Forall _ _ _ _ _ Hr Hsf) as Ht.
  apply (Forall_impl _ _ _ Ht). intros c Hc. by apply lower_char_facts.
Qed.

Lemma minted_leaf_plain (n : N) (rest : string) :
  Forall (λ c, Werkzeug.filename_char c = true) (Py.chars rest) →
  plain_name (uuid_str n +:+ rest).
Proof.
  intros Hrest.
  assert (Forall (λ c, Werkzeug.filename_char c = true)
            (Py.chars (uuid_str n +:+ rest))) as Hall.
  { rewrite chars_append. apply Forall_app. split; [|done].
    unfold uuid_str. rewrite chars_str. apply uuid_chars_Forall. }
  split; [done|]. split.
  - unfold Py.contains. rewrite Forall_filename_no_slash by done. intros H. exact H.
  - rewrite chars_append. unfold uuid_str. rewrite chars_str.
    destruct (uuid_chars_head n) as (d & l & ->). cbn [app head].
    intros [= Hd]. destruct (hex_digit_char d) as [_ Hdot].
    unfold Werkzeug.dot_or_underscore in Hdot. rewrite Hd in Hdot. done.
Qed.

(** X12. Whatever file name the client sent and whatever number was drawn,
    both paths an upload reserves lie directly inside their folders: each is
    the folder, a separator and a plain name, that is one without separator
    and without leading dot, made of letters, digits, [_], [.] and [-] only. *)
Theorem reserved_paths_stay_inside (file : FileStorage) (env : Env) :
  (∃ leaf, upload_path_of file env = UPLOAD_FOLDER +:+ "/" +:+ leaf ∧ plain_name leaf)
  ∧ (∃ leaf, converted_path_of env = CONVERTED_FOLDER +:+ "/" +:+ leaf ∧ plain_name leaf).
Proof.
  split.
  - exists (temp_filename_of (filename file) (uuid_str (uuid4 env))).
    split; [apply upload_path_under|].
    unfold temp_filename_of. apply minted_leaf_plain.
    rewrite chars_append. apply Forall_app. split; [by repeat constructor|].
    apply original_extension_chars.
    unfold Werkzeug.secure_filename. rewrite chars_str. apply secure_chars_Forall.
  - exists (converted_filename_of env). split; [apply converted_path_under|].
    unfold converted_filename_of. apply minted_leaf_plain. by repeat constructor.
Qed.

(** *** The extension of the saved input *)

Lemma kept_char_facts (c : ascii) :
  kept_char c = true →
  Werkzeug.filename_char c = true ∧ Werkzeug.dot_or_underscore c = false
  ∧ Werkzeug.is_ascii c = true ∧ Ascii.eqb c "/" = false
  ∧ Py.is_space c = false ∧ Ascii.eqb "." c = false.
Proof. destruct c as [[] [] [] [] [] [] [] []]; vm_compute; intros; done. Qed.

Lemma kept_char_lower (c : ascii) :
  kept_char (Py.lower_char c) = true → kept_char c = true.
Proof. destruct c as [[] [] [] [] [] [] [] []]; vm_compute; intros; done. Qed.

Lemma allowed_extension_chars (a : string) :
  a ∈ ALLOWED_EXTENSIONS →
  Py.chars a ≠ [] ∧ Forall (λ c, kept_char c = true) (Py.chars a).
Proof.
  unfold ALLOWED_EXTENSIONS. rewrite !elem_of_cons, elem_of_nil.
  intros H. repeat (destruct H as [->|H]; [split; [done|by repeat constructor]|]).
  done.
Qed.

Lemma join_split_suffix (l B : list ascii) :
  B ≠ [] → Forall (λ c, Py.is_space c = false) B →
  ∃ Z, Py.join_chars "_" (Py.split_ws (l ++ B)) = Z ++ B.
Proof.
  intros HB Hsp. induction l as [|c l [Z IH]].
  - exists []. cbn [app]. by rewrite split_ws_one.
  - assert (Py.split_ws (l ++ B) ≠ []) as Hne.
    { intros E. rewrite E in IH. cbn [Py.join_chars] in IH.
      destruct Z; [by destruct B|done]. }
    cbn [app Py.split_ws]. destruct (Py.is_space c); [by exists Z|].
    destruct (l ++ B) as [|c' r] eqn:Hr; [by destruct l, B|].
    destruct (Py.is_space c').
    + destruct (Py.split_ws (c' :: r)) as [|w ws] eqn:Hw; [done|].
      exists (c :: "_"%char :: Z).
      change (Py.join_chars "_" ([c] :: w :: ws))
        with ([c] ++ "_"%char :: Py.join_chars "_" (w :: ws)).
      by rewrite IH.
    + destruct (Py.split_ws (c' :: r)) as [|w ws] eqn:Hw; [done|].
      exists (c :: Z). rewrite <- app_comm_cons, <- IH.
      destruct ws; done.
Qed.

Lemma lstrip_before_extension (Y E : list ascii) :
  E ≠ [] → Forall (λ c, kept_char c = true) E →
  Py.lstrip Werkzeug.dot_or_underscore (Y ++ "."%char :: E) = E
  ∨ ∃ Y', Y' ≠ []
          ∧ Py.lstrip Werkzeug.dot_or_underscore (Y ++ "."%char :: E)
            = Y' ++ "."%char :: E.
Proof.
  intros HE Hk. induction Y as [|y Y IH].
  - left. cbn [app Py.lstrip]. change (Werkzeug.dot_or_underscore ".") with true.
    cbv iota. apply lstrip_id. intros c Hc.
    destruct E as [|e E]; [done|]. injection Hc as <-.
    inversion Hk as [|? ? He _]; subst. by apply kept_char_facts in He as (_ & ? & _).
  - cbn [app Py.lstrip]. destruct (Werkzeug.dot_or_underscore y); [done|].
    right. by exists (y :: Y).
Qed.

Lemma rev_head_suffix (X E : list ascii) :
  E ≠ [] → head (rev (X ++ E)) = head (rev E).
Proof.
  intros HE. rewrite rev_app_distr.
  destruct (rev E) as [|r R] eqn:Hr; [|done].
  apply (f_equal (@rev ascii)) in Hr. rewrite rev_involutive in Hr. done.
Qed.

Lemma strip_before_extension (Y E : list ascii) :
  E ≠ [] → Forall (λ c, kept_char c = true) E →
  Py.strip Werkzeug.dot_or_underscore (Y ++ "."%char :: E) = E
  ∨ ∃ Y', Py.strip Werkzeug.dot_or_underscore (Y ++ "."%char :: E)
          = Y' ++ "."%char :: E.
Proof.
  intros HE Hk.
  assert (∀ X c, head (rev (X ++ E)) = Some c → Werkzeug.dot_or_underscore c = false)
    as Hlast.
  { intros X c. rewrite rev_head_suffix by done. intros Hc.
    assert (c ∈ E) as Hin.
    { apply list_elem_of_In, in_rev. destruct (rev E); [done|].
      injection Hc as <-. by left. }
    rewrite Forall_forall in Hk. specialize (Hk c Hin).
    by apply kept_char_facts in Hk as (_ & ? & _). }
  unfold Py.strip.
  destruct (lstrip_before_extension Y E HE Hk) as [->|(Y' & _ & ->)].
  - left. rewrite lstrip_id by apply (Hlast []). apply rev_involutive.
  - right. exists Y'.
    rewrite lstrip_id.
    + apply rev_involutive.
    + replace (Y' ++ "."%char :: E) with ((Y' ++ ["."%char]) ++ E)
        by by rewrite <- app_assoc.
      apply Hlast.
Qed.

Lemma secure_chars_before_extension (S E : list ascii) :
  E ≠ [] → Forall (λ c, kept_char c = true) E →
  Werkzeug.secure_chars (S ++ "."%char :: E) = E
  ∨ ∃ Y, Werkzeug.secure_chars (S ++ "."%char :: E) = Y ++ "."%char :: E.
Proof.
  intros HE Hk. unfold Werkzeug.secure_chars.
  assert (Forall (λ c, Werkzeug.is_ascii c = true) E) as Ha.
  { apply (Forall_impl _ _ _ Hk). intros c Hc.
    by apply kept_char_facts in Hc as (_ & _ & ? & _). }
  assert (Forall (λ c, Werkzeug.filename_char c = true) E) as Hf.
  { apply (Forall_impl _ _ _ Hk). intros c Hc.
    by apply kept_char_facts in Hc as (? & _). }
  assert (map (λ c, if Ascii.eqb c "/" then " "%char else c) E = E) as Hm.
  { clear HE Ha Hf. induction Hk as [|c E Hc _ IH]; [done|]. cbn [map].
    apply kept_char_facts in Hc as (_ & _ & _ & -> & _). by rewrite IH. }
  rewrite List.filter_app. cbn [List.filter].
  change (Werkzeug.is_ascii ".") with true. cbv iota.
  rewrite (filter_id Werkzeug.is_ascii E) by done.
  rewrite map_app. cbn [map]. change (Ascii.eqb "." "/") with false. cbv iota.
  rewrite Hm.
  destruct (join_split_suffix
              (map (λ c, if Ascii.eqb c "/" then " "%char else c)
                 (List.filter Werkzeug.is_ascii S))
              ("."%char :: E)) as [Z HZ]; [done| |].
  { constructor; [done|]. apply (Forall_impl _ _ _ Hk). intros c Hc.
    by apply kept_char_facts in Hc as (_ & _ & _ & _ & ? & _). }
  rewrite HZ, List.filter_app. cbn [List.filter].
  change (Werkzeug.filename_char ".") with true. cbv iota.
  rewrite (filter_id Werkzeug.filename_char E) by done.
  by apply strip_before_extension.
Qed.

(** X13. The input of an accepted upload is saved under the drawn identifier
    followed by a dot and the accepted extension (what follows the last dot of
    the name the client sent) in lower case; unless sanitisation leaves
    nothing of the name but that extension (as for [.mp4]), and then by
    nothing at all. *)
Theorem accepted_extension_kept_or_dropped (name unique_id : string) :
  allowed_file name = true →
  ∃ stem ext,
    name = stem +:+ "." +:+ ext
    ∧ Py.contains "." ext = false
    ∧ Py.lower ext ∈ ALLOWED_EXTENSIONS
    ∧ ((Werkzeug.secure_filename name = ext
        ∧ temp_filename_of name unique_id = unique_id +:+ ".")
       ∨ (∃ kept, Werkzeug.secure_filename name = kept +:+ "." +:+ ext
                  ∧ temp_filename_of name unique_id
                    = unique_id +:+ "." +:+ Py.lower ext)).
Proof.
  intros Hok.
  apply allowed_file_declarative in Hok as (stem & ext0 & -> & Hnodot' & Hin).
  exists stem, ext0. split; [done|]. split; [done|]. split; [done|].
  destruct (allowed_extension_chars _ Hin) as [Hne Hk].
  rewrite chars_lower in Hne, Hk.
  assert (Py.chars ext0 ≠ []) as HE by (intros E; by rewrite E in Hne).
  assert (Forall (λ c, kept_char c = true) (Py.chars ext0)) as HK.
  { apply Forall_fmap in Hk. apply (Forall_impl _ _ _ Hk).
    intros c Hc. by apply kept_char_lower. }
  assert (existsb (Ascii.eqb ".") (Py.chars ext0) = false) as Hnodot by exact Hnodot'.
  unfold temp_filename_of, Werkzeug.secure_filename, Py.contains, Py.rsplit1.
  rewrite !chars_append, !chars_str. cbn [Py.chars String.list_ascii_of_string app].
  fold (Py.chars ext0).
  destruct (secure_chars_before_extension (Py.chars stem) (Py.chars ext0) HE HK)
    as [->|[Y ->]].
  - left. rewrite Hnodot. split; [apply str_chars|done].
  - right. exists (Py.str Y).
    assert (Py.rsplit1_chars "." (Y ++ "."%char :: Py.chars ext0)
            = Some (Y, Py.chars ext0)) as Hr by by apply rsplit1_chars_Some.
    rewrite contains_rsplit, Hr. rewrite bool_decide_eq_true_2 by done.
    split.
    + apply chars_inj. rewrite !chars_append, !chars_str. done.
    + simpl. by rewrite str_chars.
Qed.

(** ** The further properties at sample inputs *)

Lemma limiter_decision_witness :
  (run 5 60 (burst_calls ++ ("203.0.113.7", 1700000059) :: []) ∅).1 !! length burst_calls
  = Some false.
Proof.
  rewrite (limiter_decision 5 60 burst_calls [] "203.0.113.7" 1700000059).
  - vm_compute. reflexivity.
  - cbv [burst_calls replicate app fmap list_fmap snd].
    repeat (apply Sorted_cons; [|first [apply HdRel_nil | apply HdRel_cons; lia]]).
    apply Sorted_nil.
Defined.

Lemma passed_upload_is_counted_witness :
  status (serve (PostUpload upload_without_file 1700000000 encoder_ok)
            (mkApp ∅ empty_world)).1 = 400
  ∧ request_timestamps
      (serve (PostUpload upload_without_file 1700000000 encoder_ok)
         (mkApp ∅ empty_world)).2 !!! remote_addr upload_without_file
    = filter (λ ts, 1700000000 - ts < RATE_LIMIT_WINDOW_SECONDS)
        (request_timestamps (mkApp ∅ empty_world) !!! remote_addr upload_without_file)
      ++ [1700000000].
Proof.
  split; [vm_compute; reflexivity|].
  apply (passed_upload_is_counted upload_without_file 1700000000 encoder_ok
           (mkApp ∅ empty_world) _ _ (pair_eta _)).
  vm_compute. discriminate.
Defined.

Lemma upload_touches_only_its_paths_witness :
  fs (upload_file sample_upload encoder_failing world_with_other_file).2
    !! "converted/other.mp4"
  = Some (File "KEEP").
Proof.
  rewrite (upload_touches_only_its_paths sample_upload encoder_failing
             world_with_other_file "converted/other.mp4").
  - vm_compute. reflexivity.
  - discriminate.
  - discriminate.
  - intros file [= <-]. vm_compute. discriminate.
  - vm_compute. discriminate.
Defined.

Lemma only_conversions_create_files_witness :
  is_file (fs (world (mkApp ∅ empty_world))) sample_output_path = true
  ∨ ∃ req now env,
      PostUpload sample_upload 1700000000 encoder_ok = PostUpload req now env
      ∧ sample_output_path = converted_path_of env
      ∧ status (serve (PostUpload sample_upload 1700000000 encoder_ok)
                  (mkApp ∅ empty_world)).1 = 200.
Proof.
  apply (only_conversions_create_files (PostUpload sample_upload 1700000000 encoder_ok)
           (mkApp ∅ empty_world) sample_output_path).
  vm_compute. reflexivity.
Defined.

Lemma encoder_consulted_once_witness :
  runs (log (upload_file sample_upload (mkEnv sample_uuid encoder_by_name)
               empty_world).2)
  = [command_of sample_upload sample_file (mkEnv sample_uuid encoder_by_name)]
  ∧ upload_file sample_upload (mkEnv sample_uuid encoder_by_name) empty_world
    = upload_file sample_upload (mkEnv sample_uuid (λ _ _, Exited 0 (Some "MP4-VIDEO")))
        empty_world
  ∧ upload_file oversize_upload (mkEnv sample_uuid encoder_by_name) empty_world
    = upload_file oversize_upload (mkEnv sample_uuid (λ _ _, Exited 1 None))
        empty_world.
Proof.
  destruct (encoder_consulted_once sample_upload sample_uuid encoder_by_name
              (λ _ _, Exited 0 (Some "MP4-VIDEO")) empty_world) as (Hone & _ & _).
  destruct (Hone sample_file) as (Hruns & Hsame & _).
  { vm_compute. reflexivity. }
  { vm_compute. reflexivity. }
  { vm_compute. discriminate. }
  destruct (encoder_consulted_once oversize_upload sample_uuid encoder_by_name
              (λ _ _, Exited 1 None) empty_world) as (_ & Hnone & Hindep).
  split; [|split].
  - rewrite Hruns. reflexivity.
  - apply Hsame. vm_compute. reflexivity.
  - apply Hindep, Hnone. right. left. exists Spec.Oversize. vm_compute. reflexivity.
Defined.

Lemma allowed_file_ignores_case_witness :
  allowed_file "Clip.MOV" = allowed_file "cLIP.mov".
Proof.
  apply (allowed_file_ignores_case "Clip.MOV" "cLIP.mov").
  vm_compute. reflexivity.
Defined.

Example hidden_name_loses_extension :
  allowed_file ".mp4" = true ∧ temp_filename_of ".mp4" "id" = "id."
  ∧ temp_filename_of "Movie.MP4" "id" = "id.mp4".
Proof. vm_compute. done. Qed.

Lemma accepted_extension_kept_or_dropped_witness :
  ∃ stem ext,
    "Movie.MP4" = stem +:+ "." +:+ ext
    ∧ Py.contains "." ext = false
    ∧ Py.lower ext ∈ ALLOWED_EXTENSIONS
    ∧ ((Werkzeug.secure_filename "Movie.MP4" = ext
        ∧ temp_filename_of "Movie.MP4" "id" = "id" +:+ ".")
       ∨ (∃ kept, Werkzeug.secure_filename "Movie.MP4" = kept +:+ "." +:+ ext
                  ∧ temp_filename_of "Movie.MP4" "id" = "id" +:+ "." +:+ Py.lower ext)).
Proof.
  assert (allowed_file "Movie.MP4" = true) as H by (vm_compute; reflexivity).
  exact (accepted_extension_kept_or_dropped "Movie.MP4" "id" H).
Defined.

Lemma converted_bytes_round_trip_witness :
  ∃ name w1 w2 w3,
    upload_file sample_upload encoder_ok empty_world
    = (Ok (mkResponse 200 (JsonFilename name)), w1)
    ∧ download_file name w1 = (mkResponse 200 (SentFile name "MP4-VIDEO" true), w2)
    ∧ download_file name w2 = (mkResponse 404 (Text "File not found."), w3).
Proof.
  apply (converted_bytes_round_trip sample_upload encoder_ok empty_world
           (create_temp_dirs empty_world).2 sample_file "MP4-VIDEO").
  - vm_compute. reflexivity.
  - vm_compute. reflexivity.
  - vm_compute. discriminate.
  - vm_compute. discriminate.
  - reflexivity.
Defined.
